(** * JSip-8: a shallow embedding of [jsip-8.js]

    The interpreter is one JavaScript class, [JSip8], whose methods mutate
    the fields of [this].  The embedding keeps that shape: a record [State]
    for the fields, a small state-and-exception monad [M] for the method
    bodies, and one Rocq definition per method, named as in the source.

    JavaScript values.  Registers, the program counter and the cells of the
    arrays hold arbitrary JavaScript values, so the embedding has a value
    type [JsVal]: [undefined], numbers (with NaN), references to array
    objects living in a heap (the rows allocated by [clearScreen] are shared,
    and the sharing is observable), and function objects.

    Numbers are IEEE doubles in JavaScript.  They are modelled by exact
    rationals, and an arithmetic result is only produced when it is a dyadic
    rational with a numerator below 2^53 and a denominator of at most
    2^1074: on such values the double operation is exact, so the model and
    the engine agree.  A run that leaves this fragment (a rounded result, a
    string produced by [+] on an object, a property of an array that is not
    an array index) ends in [Unmodelled]; no theorem below speaks about it
    other than to show that a run stays inside the fragment.

    [console.log] calls have no effect on the fields and are left out.
    The repository also holds a draft of the same class, in which
    [executeOpcode] has no RET and no DRW case and there is no [drawPixel]
    and no [clearScreen]; the embedding follows [jsip-8.js]. *)

From Stdlib Require Import ZArith QArith Qcanon Lia.
From stdpp Require Import base list strings.

#[local] Open Scope Z_scope.

(** ** Values *)

(** A reference is an index into the heap of array objects. *)
Abbreviation loc := nat (only parsing).

Inductive Num : Type :=
  | NaN
  | Fin (q : Q).

Inductive JsVal : Type :=
  | VUndef
  | VNum (n : Num)
  | VRef (l : loc)
  | VFun (name : string).

(** An integer as a JavaScript number. *)
Definition int (z : Z) : JsVal := VNum (Fin (inject_Z z)).

(** The heap of array objects. *)
Abbreviation Heap := (list (list JsVal)) (only parsing).

(** ** Numbers *)

(** [pow2_log p] is [Some k] when [p = 2^k]. *)
Fixpoint pow2_log (p : positive) : option N :=
  match p with
  | xH => Some 0%N
  | xO p' => N.succ <$> pow2_log p'
  | xI _ => None
  end.

(** Sufficient for a rational in lowest terms to be a double. *)
Definition representable (q : Q) : bool :=
  (Z.abs (Qnum q) <? 2 ^ 53) &&
  match pow2_log (Qden q) with
  | Some k => (k <=? 1074)%N
  | None => false
  end.

Definition exact (q : Q) : option Num :=
  let r := Qred q in
  if representable r then Some (Fin r) else None.

Definition num_binop (f : Q -> Q -> Q) (a b : Num) : option Num :=
  match a, b with
  | Fin p, Fin q => exact (f p q)
  | _, _ => Some NaN
  end.

Definition num_add := num_binop Qplus.
Definition num_sub := num_binop Qminus.
Definition num_mul := num_binop Qmult.

(** Division by a non-zero number (the source only divides by 2). *)
Definition num_div (a b : Num) : option Num :=
  match a, b with
  | Fin p, Fin q => if Qeq_bool q 0 then None else exact (p / q)
  | _, _ => Some NaN
  end.

Definition Qlt_bool (p q : Q) : bool := negb (Qle_bool q p).

(** [a < b] on numbers; a comparison with NaN is false. *)
Definition num_lt (a b : Num) : bool :=
  match a, b with
  | Fin p, Fin q => Qlt_bool p q
  | _, _ => false
  end.

(** [===] on numbers. *)
Definition num_eq (a b : Num) : bool :=
  match a, b with
  | Fin p, Fin q => Qeq_bool p q
  | _, _ => false
  end.

(** Two's complement wrap to a signed 32-bit integer. *)
Definition wrap32 (z : Z) : Z :=
  let m := z mod 2 ^ 32 in
  if m <? 2 ^ 31 then m else m - 2 ^ 32.

(** ToInt32: truncate towards zero, then wrap; NaN gives 0. *)
Definition num_to_int32 (a : Num) : Z :=
  match a with
  | NaN => 0
  | Fin q => wrap32 (Z.quot (Qnum q) (Z.pos (Qden q)))
  end.

(** ToNumber.  An array object is converted through its string form, the
    elements joined by commas: with two or more elements that string has a
    comma and is not a numeric literal, so the result is NaN.  Shorter
    arrays and function objects are outside the fragment. *)
Definition to_number (h : Heap) (a : JsVal) : option Num :=
  match a with
  | VUndef => Some NaN
  | VNum n => Some n
  | VRef l =>
      match h !! l with
      | Some arr => if decide (2 <= length arr)%nat then Some NaN else None
      | None => None
      end
  | VFun _ => None
  end.

Definition is_object (a : JsVal) : bool :=
  match a with
  | VRef _ | VFun _ => true
  | _ => false
  end.

(** [===]: same type and same value; objects by identity. *)
Definition strict_eq (a b : JsVal) : bool :=
  match a, b with
  | VUndef, VUndef => true
  | VNum m, VNum n => num_eq m n
  | VRef l, VRef l' => bool_decide (l = l')
  | VFun f, VFun g => bool_decide (f = g)
  | _, _ => false
  end.

(** ** Arrays *)

(** The array index a property key denotes, if any: a non-negative integer
    below 2^32 - 1. *)
Definition as_index (k : JsVal) : option nat :=
  match k with
  | VNum (Fin q) =>
      let r := Qred q in
      if Pos.eqb (Qden r) 1 && (0 <=? Qnum r) && (Qnum r <? 2 ^ 32 - 1)
      then Some (Z.to_nat (Qnum r)) else None
  | _ => None
  end.

(** [arr[k]] for an array that has no properties besides its elements: a
    hole, an index past the end and a key that is no index all read
    [undefined].  Holes are represented by [VUndef]. *)
Definition arr_get (arr : list JsVal) (k : JsVal) : option JsVal :=
  if is_object k then None
  else Some (match as_index k with
             | Some n => default VUndef (arr !! n)
             | None => VUndef
             end).

(** [arr[n] = x]: past the end, a JavaScript array grows, the gap being
    holes. *)
Definition arr_store (arr : list JsVal) (n : nat) (x : JsVal) : list JsVal :=
  if decide (n < length arr)%nat then <[n := x]> arr
  else arr ++ replicate (n - length arr) VUndef ++ [x].

(** [arr[k] = x]; a key that is no array index would create a named
    property, which is outside the fragment. *)
Definition arr_set (arr : list JsVal) (k x : JsVal) : option (list JsVal) :=
  match as_index k with
  | Some n => Some (arr_store arr n x)
  | None => None
  end.

(** [arr[z]] for an integer [z]. *)
Definition arr_at (arr : list JsVal) (z : Z) : JsVal :=
  if z <? 0 then VUndef else default VUndef (arr !! Z.to_nat z).

(** ** The interpreter's fields *)

Definition SCREEN_WIDTH : Z := 0x3f.
Definition SCREEN_HEIGHT : Z := 0x1f.

(** The fields of a [JSip8] object.  [sp], [i] and the two timers only ever
    hold integers (they start at 0 and are changed by [++], [--] and by
    masked opcode fields), so they are integers here; [pc] and the cells of
    the arrays can hold any value.  [heap] holds the array objects that
    other values refer to. *)
Record State : Type := mkState {
  memory : list JsVal;
  stack : list JsVal;
  pc : JsVal;
  sp : Z;
  v : list JsVal;
  i : Z;
  delayTimer : Z;
  soundTimer : Z;
  lastCommandRun : Z;
  screen : list JsVal;
  heap : Heap
}.

Definition set_memory (m : list JsVal) (st : State) : State :=
  mkState m (stack st) (pc st) (sp st) (v st) (i st) (delayTimer st)
    (soundTimer st) (lastCommandRun st) (screen st) (heap st).
Definition set_stack (s : list JsVal) (st : State) : State :=
  mkState (memory st) s (pc st) (sp st) (v st) (i st) (delayTimer st)
    (soundTimer st) (lastCommandRun st) (screen st) (heap st).
Definition set_pc (p : JsVal) (st : State) : State :=
  mkState (memory st) (stack st) p (sp st) (v st) (i st) (delayTimer st)
    (soundTimer st) (lastCommandRun st) (screen st) (heap st).
Definition set_sp (n : Z) (st : State) : State :=
  mkState (memory st) (stack st) (pc st) n (v st) (i st) (delayTimer st)
    (soundTimer st) (lastCommandRun st) (screen st) (heap st).
Definition set_v (r : list JsVal) (st : State) : State :=
  mkState (memory st) (stack st) (pc st) (sp st) r (i st) (delayTimer st)
    (soundTimer st) (lastCommandRun st) (screen st) (heap st).
Definition set_i (n : Z) (st : State) : State :=
  mkState (memory st) (stack st) (pc st) (sp st) (v st) n (delayTimer st)
    (soundTimer st) (lastCommandRun st) (screen st) (heap st).
Definition set_delayTimer (n : Z) (st : State) : State :=
  mkState (memory st) (stack st) (pc st) (sp st) (v st) (i st) n
    (soundTimer st) (lastCommandRun st) (screen st) (heap st).
Definition set_soundTimer (n : Z) (st : State) : State :=
  mkState (memory st) (stack st) (pc st) (sp st) (v st) (i st) (delayTimer st)
    n (lastCommandRun st) (screen st) (heap st).
Definition set_lastCommandRun (n : Z) (st : State) : State :=
  mkState (memory st) (stack st) (pc st) (sp st) (v st) (i st) (delayTimer st)
    (soundTimer st) n (screen st) (heap st).
Definition set_screen (s : list JsVal) (st : State) : State :=
  mkState (memory st) (stack st) (pc st) (sp st) (v st) (i st) (delayTimer st)
    (soundTimer st) (lastCommandRun st) s (heap st).
Definition set_heap (h : Heap) (st : State) : State :=
  mkState (memory st) (stack st) (pc st) (sp st) (v st) (i st) (delayTimer st)
    (soundTimer st) (lastCommandRun st) (screen st) h.

(** ** The monad of method bodies *)

Inductive JsError : Type :=
  | ReferenceError
  | TypeError.

(** A method body returns normally, throws (the fields keep what was
    written before the throw), or leaves the modelled fragment. *)
Inductive Res (A : Type) : Type :=
  | Ret (a : A) (st : State)
  | Raise (e : JsError) (st : State)
  | Unmodelled.
Arguments Ret {A} a st.
Arguments Raise {A} e st.
Arguments Unmodelled {A}.

Definition M (A : Type) : Type := State -> Res A.

Definition ret {A} (a : A) : M A := fun st => Ret a st.

Definition bind {A B} (m : M A) (k : A -> M B) : M B :=
  fun st =>
    match m st with
    | Ret a st' => k a st'
    | Raise e st' => Raise e st'
    | Unmodelled => Unmodelled
    end.

Notation "'do' x <- m ; k" := (bind m (fun x => k))
  (at level 60, x name, m at level 59, k at level 200).
Notation "'exec' m ; k" := (bind m (fun _ => k))
  (at level 60, m at level 59, k at level 200).

Definition gets {A} (f : State -> A) : M A := fun st => Ret (f st) st.
Definition modify (f : State -> State) : M unit := fun st => Ret tt (f st).
Definition throw {A} (e : JsError) : M A := fun st => Raise e st.

(** A pure operation that may leave the fragment. *)
Definition lift {A} (o : option A) : M A :=
  fun st => match o with Some a => Ret a st | None => Unmodelled end.

(** ** Operators *)

Definition ToNumber (a : JsVal) : M Num :=
  do h <- gets heap; lift (to_number h a).

Definition ToInt32 (a : JsVal) : M Z :=
  do n <- ToNumber a; ret (num_to_int32 n).

Definition arith (f : Num -> Num -> option Num) (a b : JsVal) : M JsVal :=
  do m <- ToNumber a;
  do n <- ToNumber b;
  do r <- lift (f m n);
  ret (VNum r).

(** [a + b]: with an object operand it is a string concatenation. *)
Definition js_add (a b : JsVal) : M JsVal :=
  if is_object a || is_object b then lift None else arith num_add a b.

Definition js_sub : JsVal -> JsVal -> M JsVal := arith num_sub.
Definition js_mul : JsVal -> JsVal -> M JsVal := arith num_mul.
Definition js_div : JsVal -> JsVal -> M JsVal := arith num_div.

(** [a < b]: two objects are compared as strings, anything else as
    numbers. *)
Definition js_lt (a b : JsVal) : M bool :=
  if is_object a && is_object b then lift None
  else do m <- ToNumber a; do n <- ToNumber b; ret (num_lt m n).

Definition js_gt (a b : JsVal) : M bool := js_lt b a.

Definition bitop (f : Z -> Z -> Z) (a b : JsVal) : M JsVal :=
  do m <- ToInt32 a;
  do n <- ToInt32 b;
  ret (int (f m n)).

Definition js_or : JsVal -> JsVal -> M JsVal := bitop Z.lor.
Definition js_and : JsVal -> JsVal -> M JsVal := bitop Z.land.
Definition js_xor : JsVal -> JsVal -> M JsVal := bitop Z.lxor.

(** [a << b]: the count is taken modulo 32 and the result wraps. *)
Definition js_shl : JsVal -> JsVal -> M JsVal :=
  bitop (fun m n => wrap32 (Z.shiftl m (n mod 32))).

(** [arr[k]] and [arr[k] = x] inside a method. *)
Definition js_get (arr : list JsVal) (k : JsVal) : M JsVal := lift (arr_get arr k).
Definition js_set (arr : list JsVal) (k x : JsVal) : M (list JsVal) :=
  lift (arr_set arr k x).

(** ** Identifiers *)

(** A scope binds names to values; an identifier is resolved through the
    chain of enclosing scopes, innermost first, and a name that no scope
    binds throws a ReferenceError. *)
Definition Scope := list (string * JsVal).

Fixpoint scope_find (name : string) (s : Scope) : option JsVal :=
  match s with
  | [] => None
  | (n, a) :: s' => if String.eqb n name then Some a else scope_find name s'
  end.

Fixpoint chain_find (name : string) (chain : list Scope) : option JsVal :=
  match chain with
  | [] => None
  | s :: chain' =>
      match scope_find name s with
      | Some a => Some a
      | None => chain_find name chain'
      end
  end.

Definition resolve (chain : list Scope) (name : string) : M JsVal :=
  match chain_find name chain with
  | Some a => ret a
  | None => throw ReferenceError
  end.

(** The declarations at the top level of the script. *)
Definition script_scope : Scope :=
  [("SCREEN_WIDTH", int SCREEN_WIDTH); ("SCREEN_HEIGHT", int SCREEN_HEIGHT);
   ("JSip8", VFun "JSip8"); ("loadRom", VFun "loadRom");
   ("start", VFun "start")]%string.

(** The scopes around the body of [executeOpcode]: its parameters and its
    [const opcode], the class, the script, and last the global object of
    the host, [genv]. *)
Definition function_chain (genv : Scope) (byte1 byte2 : JsVal) (opcode : Z)
  : list Scope :=
  [ [("byte1", byte1); ("byte2", byte2); ("opcode", int opcode)]%string;
    [("JSip8", VFun "JSip8")]%string;
    script_scope;
    genv ].

(** ** Methods *)

(** [reset()], called at time [now]: every field gets a fresh value. *)
Definition reset (now : Z) : State :=
  {| memory := replicate 4096 VUndef;
     stack := replicate 16 VUndef;
     pc := int 0;
     sp := 0;
     v := replicate 16 VUndef;
     i := 0;
     delayTimer := 0;
     soundTimer := 0;
     lastCommandRun := now;
     screen := replicate (Z.to_nat (SCREEN_WIDTH * SCREEN_HEIGHT)) (int 0);
     heap := [] |}.

Definition drawPixel (x y : JsVal) : M JsVal :=
  do wide <- js_gt x (int SCREEN_WIDTH);
  do x <- (if wide : bool then js_sub x (int SCREEN_WIDTH)
           else do neg <- js_lt x (int 0);
                if neg : bool then js_add x (int SCREEN_WIDTH) else ret x);
  do high <- js_gt y (int SCREEN_HEIGHT);
  do y <- (if high : bool then js_sub y (int SCREEN_HEIGHT)
           else do neg <- js_lt y (int 0);
                if neg : bool then js_add y (int SCREEN_HEIGHT) else ret y);
  do offset <- js_mul y (int SCREEN_WIDTH);
  do location <- js_add x offset;
  do scr <- gets screen;
  do hadAlreadyAPixel <- js_get scr location;
  do toggled <- js_xor hadAlreadyAPixel (int 1);
  do scr' <- js_set scr location toggled;
  exec modify (set_screen scr');
  ret hadAlreadyAPixel.

(** [new Array(0x3f).fill(new Array(0x1f).fill(0x0))]: the argument of the
    outer [fill] is evaluated once, so one row object is allocated and every
    entry of the outer array is a reference to it. *)
Definition clearScreen : M unit :=
  do h <- gets heap;
  let row := length h in
  exec modify (set_heap (h ++ [replicate (Z.to_nat 0x1f) (int 0x0)]));
  modify (set_screen (replicate (Z.to_nat 0x3f) (VRef row))).

Definition executeDelayTimer : M unit :=
  do t <- gets delayTimer;
  if t >? 0 then modify (set_delayTimer (t - 1)) else ret tt.

Definition executeSoundTimer : M unit :=
  do t <- gets soundTimer;
  if t >? 0 then modify (set_soundTimer (t - 1)) else ret tt.

(** [this.v[x]] and [this.v[x] = a] for a register index [x] in 0..15. *)
Definition reg (x : Z) : M JsVal := gets (fun st => arr_at (v st) x).
Definition set_reg (x : Z) (a : JsVal) : M unit :=
  modify (fun st => set_v (arr_store (v st) (Z.to_nat x) a) st).

(** [this.pc += 2] *)
Definition skip : M unit :=
  do p <- gets pc;
  do p' <- js_add p (int 2);
  modify (set_pc p').

(** [(byte1 << 8) | byte2] *)
Definition opcode_of (byte1 byte2 : JsVal) : M Z :=
  do hi <- js_shl byte1 (int 8);
  do hi32 <- ToInt32 hi;
  do lo32 <- ToInt32 byte2;
  ret (Z.lor hi32 lo32).

(** The inner loop of DRW, [for (let x = 0; x < 8; x++)]: [todo] counts the
    iterations left; [sprite] is the variable of the enclosing block that
    the loop shifts.  [x] and [y] are the two loop counters, and it is
    these that index the registers. *)
Fixpoint draw_columns (todo : nat) (x y : Z) (sprite : JsVal) : M unit :=
  match todo with
  | O => ret tt
  | S todo' =>
      do bit <- js_and sprite (int 0x80);
      do lit <- js_gt bit (int 0);
      exec (if lit : bool then
              do vx <- reg x;
              do px <- js_add vx (int x);
              do vy <- reg y;
              do py <- js_add vy (int y);
              do erased <- drawPixel px py;
              set_reg 0xf erased
            else ret tt);
      do sprite' <- js_shl sprite (int 1);
      draw_columns todo' (x + 1) y sprite'
  end.

(** The outer loop of DRW, [for (let y = 0; y < n; y++)]. *)
Fixpoint draw_rows (todo : nat) (y : Z) : M unit :=
  match todo with
  | O => ret tt
  | S todo' =>
      do sprite <- gets (fun st => arr_at (memory st) (i st + y));
      exec draw_columns 8 0 y sprite;
      draw_rows todo' (y + 1)
  end.

(** The 0x8000 group, [switch (lastByte)]. *)
Definition execute_alu (lastByte x y : Z) : M unit :=
  match lastByte with
  | 0x0 =>
      do vy <- reg y;
      set_reg x vy
  | 0x1 =>
      do vx <- reg x; do vy <- reg y;
      do r <- js_or vx vy;
      set_reg x r
  | 0x2 =>
      do vx <- reg x; do vy <- reg y;
      do r <- js_and vx vy;
      set_reg x r
  | 0x3 =>
      do vx <- reg x; do vy <- reg y;
      do r <- js_xor vx vy;
      set_reg x r
  | 0x4 =>
      if x + y >? 255 then
        exec set_reg 0xf (int 1);
        do vx <- reg x; do vy <- reg y;
        do sum <- js_add vx vy;
        do r <- js_and sum (int 0x00ff);
        set_reg x r
      else
        exec set_reg 0xf (int 0);
        do vx <- reg x; do vy <- reg y;
        do sum <- js_add vx vy;
        set_reg x sum
  | 0x5 =>
      do vx <- reg x; do vy <- reg y;
      do more <- js_gt vx vy;
      exec set_reg 0xf (if more : bool then int 1 else int 0);
      do vx <- reg x; do vy <- reg y;
      do diff <- js_sub vx vy;
      exec set_reg x diff;
      do vx <- reg x;
      do neg <- js_lt vx (int 0);
      if neg : bool then
        do vx <- reg x;
        do r <- js_add vx (int 256);
        set_reg x r
      else ret tt
  | 0x6 =>
      do vx <- reg x;
      do leastSignificantBit <- js_and vx (int 1);
      exec set_reg 0xf
        (if strict_eq leastSignificantBit (int 1) then int 1 else int 0);
      do vx <- reg x;
      do r <- js_div vx (int 2);
      set_reg x r
  | 0x7 =>
      do vy <- reg y; do vx <- reg x;
      do more <- js_gt vy vx;
      exec set_reg 0xf (if more : bool then int 1 else int 0);
      do vy <- reg y; do vx <- reg x;
      do diff <- js_sub vy vx;
      exec set_reg x diff;
      do vx <- reg x;
      do neg <- js_lt vx (int 0);
      if neg : bool then
        do vx <- reg x;
        do r <- js_add vx (int 256);
        set_reg x r
      else ret tt
  | 0xe =>
      do vx <- reg x;
      do msb <- js_and vx (int 0x80);
      exec set_reg 0xf msb;
      do vx <- reg x;
      do r <- js_shl vx (int 1);
      set_reg x r
  | _ => ret tt
  end.

(** [executeOpcode(byte1, byte2)].  [genv] is the global object of the
    host and [random] the integer that
    [Math.floor(Math.random() * 0x00ff)] evaluates to in this call. *)
Definition executeOpcode (genv : Scope) (random : Z) (byte1 byte2 : JsVal)
  : M unit :=
  do opcode <- opcode_of byte1 byte2;
  let outer := function_chain genv byte1 byte2 opcode in
  match Z.land opcode 0xf000 with
  | 0x0000 =>
      match opcode with
      | 0x00e0 => clearScreen
      | 0x0ee =>
          do top <- gets (fun st => arr_at (stack st) (sp st));
          exec modify (set_pc top);
          modify (fun st => set_sp (sp st - 1) st)
      | _ => ret tt
      end
  | 0x1000 =>
      modify (set_pc (int (Z.land opcode 0x0fff)))
  | 0x2000 =>
      exec modify (fun st => set_sp (sp st + 1) st);
      exec modify (fun st => set_stack (stack st ++ [pc st]) st);
      modify (set_pc (int (Z.land opcode 0x0fff)))
  | 0x3000 =>
      let vIndex := Z.land (Z.shiftr opcode 8) 0x000f in
      do vx <- reg vIndex;
      if strict_eq vx (int (Z.land opcode 0x00ff)) then skip else ret tt
  | 0x4000 =>
      let vIndex := Z.land (Z.shiftr opcode 8) 0x000f in
      do vx <- reg vIndex;
      if negb (strict_eq vx (int (Z.land opcode 0x00ff))) then skip else ret tt
  | 0x5000 =>
      let vxIndex := Z.land (Z.shiftr opcode 8) 0x000f in
      let vyIndex := Z.land (Z.shiftr opcode 4) 0x000f in
      do vx <- reg vxIndex; do vy <- reg vyIndex;
      if strict_eq vx vy then skip else ret tt
  | 0x6000 =>
      let vx := Z.land (Z.shiftr opcode 8) 0x000f in
      let kk := Z.land opcode 0x00ff in
      set_reg vx (int kk)
  | 0x7000 =>
      let vx := Z.land (Z.shiftr opcode 8) 0x000f in
      let kk := Z.land opcode 0xff in
      set_reg vx (int (vx + kk))
  | 0x8000 =>
      let lastByte := Z.land opcode 0x000f in
      let x := Z.land (Z.shiftr opcode 8) 0x000f in
      let y := Z.land (Z.shiftr opcode 4) 0x000f in
      execute_alu lastByte x y
  | 0x9000 =>
      (* no declaration in this block: [x] and [y] are free *)
      let chain := [] :: outer in
      do x <- resolve chain "x";
      do regs <- gets v;
      do vx <- js_get regs x;
      do y <- resolve chain "y";
      do vy <- js_get regs y;
      if strict_eq vx vy then skip else ret tt
  | 0xa000 =>
      modify (set_i (Z.land opcode 0x0fff))
  | 0xb000 =>
      do v0 <- reg 0;
      do target <- js_add (int (Z.land opcode 0x0fff)) v0;
      modify (set_pc target)
  | 0xc000 =>
      let kk := Z.land opcode 0x00ff in
      (* the block declares [kk] and [random]; [x] is free *)
      let chain := [("kk", int kk); ("random", int random)]%string :: outer in
      do x <- resolve chain "x";
      do r <- js_and (int random) (int kk);
      do regs <- gets v;
      do regs' <- js_set regs x r;
      modify (set_v regs')
  | 0xd000 =>
      let n := Z.land opcode 0x000f in
      draw_rows (Z.to_nat n) 0
  | 0xe000 => ret tt
  | 0xf000 => ret tt
  | _ => ret tt
  end.

(** One invocation of [run()] at time [now]; the call of
    [requestAnimationFrame] that schedules the next one is the host's. *)
Definition run (genv : Scope) (random : Z) (now : Z) : M unit :=
  do last <- gets lastCommandRun;
  if now - last >? 1000 then
    exec executeDelayTimer;
    exec executeSoundTimer;
    do mem <- gets memory;
    do p <- gets pc;
    do byte1 <- js_get mem p;
    do p1 <- js_add p (int 1);
    do byte2 <- js_get mem p1;
    exec executeOpcode genv random byte1 byte2;
    exec skip;
    modify (set_lastCommandRun now)
  else ret tt.

(** [load(program)] *)
Definition load (genv : Scope) (random : Z) (now : Z) (program : list JsVal)
  : M unit :=
  exec modify (set_memory program);
  run genv random now.

(** ** Access to the grid that [clearScreen] builds

    After [clearScreen] the screen is an array of row references, so a
    cell is [this.screen[r][c]].  No method of the class reads or writes a
    cell this way; the two definitions below are the JavaScript expression
    and assignment themselves, for stating what the sharing of the row
    means. *)

(** [this.screen[r][c]] *)
Definition read_cell (r c : nat) : M JsVal :=
  do scr <- gets screen;
  match default VUndef (scr !! r) with
  | VRef l =>
      do h <- gets heap;
      do row <- lift (h !! l);
      ret (default VUndef (row !! c))
  | VUndef => throw TypeError
  | _ => lift None
  end.

(** [this.screen[r][c] = a] *)
Definition write_cell (r c : nat) (a : JsVal) : M unit :=
  do scr <- gets screen;
  match default VUndef (scr !! r) with
  | VRef l =>
      do h <- gets heap;
      do row <- lift (h !! l);
      modify (set_heap (<[l := arr_store row c a]> h))
  | VUndef => throw TypeError
  | _ => lift None
  end.

(** ** Iteration and sample states *)

(** [k] calls of a method in a row. *)
Fixpoint times (k : nat) (m : M unit) : M unit :=
  match k with
  | O => ret tt
  | S k' => exec m; times k' m
  end.

(** [drawPixel(x, y)] for each [x] of a list, left to right. *)
Fixpoint draw_each (xs : list Z) (y : Z) : M unit :=
  match xs with
  | [] => ret tt
  | x :: xs' => exec drawPixel (int x) (int y); draw_each xs' y
  end.

(** The object right after its constructor ran at time 0. *)
Definition fresh : State := reset 0.

(** [fresh] with register [x] holding [a]. *)
Definition with_reg (x : nat) (a : JsVal) (st : State) : State :=
  set_v (<[x := a]> (v st)) st.

(** All sixteen registers zero. *)
Definition zeroed : State := set_v (replicate 16 (int 0)) fresh.

(** A state for DRW: V2 = 10, V3 = 5, every other register 0, I = 0, the
    sprite row 0xC0 at address 0, and the pixel at location 0 already
    set. *)
Definition draw_state : State :=
  set_screen (<[0%nat := int 1]> (screen fresh))
    (set_memory [int 0xc0]
       (with_reg 3 (int 5) (with_reg 2 (int 10) zeroed))).

(** The state after [k] calls from [fresh], each executed as CALL 0x200. *)
Definition after_calls (k : nat) : State :=
  match times k (executeOpcode [] 0 (int 0x22) (int 0x00)) fresh with
  | Ret _ st => st
  | _ => fresh
  end.

(** The opcode bytes of a 16-bit instruction word. *)
Definition high_byte (w : Z) : JsVal := int (w / 256).
Definition low_byte (w : Z) : JsVal := int (w mod 256).

(** The integers [0 <= z < n], for checking a property of every opcode
    word by evaluation. *)
Fixpoint zrange_from (lo : Z) (count : nat) : list Z :=
  match count with
  | O => []
  | S count' => lo :: zrange_from (lo + 1) count'
  end.

Definition zrange (n : Z) : list Z := zrange_from 0 (Z.to_nat n).

(** A state for a wrapping DRW: V0 = 0 and V1 .. V7 = 60, I = 0 and the
    sprite row 0x7F at address 0, so that the seven pixels drawn have
    x = 61 .. 67 and y = 0. *)
Definition edge_state : State :=
  set_memory [int 0x7f]
    (set_v (int 0 :: replicate 7 (int 60) ++ replicate 8 (int 0)) fresh).


(** ** Instruction words *)

(** The word [gxkk]: group [g], register nibble [x], immediate [kk]. *)
Definition word_kk (g x kk : Z) : Z := g * 4096 + x * 256 + kk.

(** The word [gxyn]: group [g], register nibbles [x] and [y], low nibble
    [n]. *)
Definition word_xyn (g x y n : Z) : Z := word_kk g x (y * 16 + n).

(** [executeOpcode] on the two bytes of a word. *)
Definition execute_word (genv : Scope) (random w : Z) : M unit :=
  executeOpcode genv random (high_byte w) (low_byte w).

(** ** What an instruction leaves alone *)

(** The number of entries of the stack array from the stack pointer to
    its end. *)
Definition above_sp (st : State) : Z := Z.of_nat (length (stack st)) - sp st.

(** [frame st st']: from [st] to [st'] the program memory, the two timers
    and the time of the last cycle are unchanged, the stack array and the
    heap have only gained entries at their end, and the stack pointer has
    not come closer to the end of the stack array. *)
Definition frame (st st' : State) : Prop :=
  memory st' = memory st
  /\ delayTimer st' = delayTimer st
  /\ soundTimer st' = soundTimer st
  /\ lastCommandRun st' = lastCommandRun st
  /\ (exists pushed, stack st' = stack st ++ pushed)
  /\ (exists allocated, heap st' = heap st ++ allocated)
  /\ above_sp st <= above_sp st'.

(** A computation keeps the frame when every run of it that returns or
    throws does. *)
Definition keeps {A} (m : M A) : Prop :=
  forall st,
    match m st with
    | Ret _ st' => frame st st'
    | Raise _ st' => frame st st'
    | Unmodelled => True
    end.


(** ** The tail of [drawPixel] *)

(** The statements of [drawPixel] from [const hadAlreadyAPixel] on, for a
    location that has been computed. *)
Definition toggle_at (location : JsVal) : M JsVal :=
  do scr <- gets screen;
  do hadAlreadyAPixel <- js_get scr location;
  do toggled <- js_xor hadAlreadyAPixel (int 1);
  do scr' <- js_set scr location toggled;
  exec modify (set_screen scr');
  ret hadAlreadyAPixel.

(** Two calls of [drawPixel] with the same arguments, returning both
    results. *)
Definition draw_twice (x y : JsVal) : M (JsVal * JsVal) :=
  do first <- drawPixel x y;
  do second <- drawPixel x y;
  ret (first, second).

(** * Theorems *)

(** ** Numbers and decoding *)

Lemma exact_int (z : Z) :
  Z.abs z < 2 ^ 53 -> exact (inject_Z z) = Some (Fin (inject_Z z)).
Proof.
  intros Hz. unfold exact.
  assert (Qred (inject_Z z) = inject_Z z) as ->.
  { apply Qred_iff. cbn. apply Z.gcd_1_r. }
  unfold representable. cbn [inject_Z Qnum Qden pow2_log].
  destruct (Z.ltb_spec (Z.abs z) (2 ^ 53)); [reflexivity | lia].
Qed.

(** Addition of integers is exact below 2^53. *)
Lemma js_add_int (a b : Z) (st : State) :
  Z.abs (a + b) < 2 ^ 53 -> js_add (int a) (int b) st = Ret (int (a + b)) st.
Proof.
  intros Hsum.
  unfold js_add, arith, ToNumber, bind, gets, lift, ret, int. cbn.
  unfold num_add, num_binop. rewrite <- inject_Z_plus.
  by rewrite exact_int.
Qed.

Lemma wrap32_small (z : Z) : - 2 ^ 31 <= z < 2 ^ 31 -> wrap32 z = z.
Proof.
  intros Hz. unfold wrap32.
  destruct (Z.ltb_spec (z mod 2 ^ 32) (2 ^ 31)) as [Hlow | Hhigh].
  - destruct (Z.le_gt_cases 0 z) as [Hpos | Hneg].
    + apply Z.mod_small. lia.
    + rewrite <- (Z.mod_add z 1 (2 ^ 32)) in Hlow by lia.
      rewrite Z.mod_small in Hlow by lia. lia.
  - destruct (Z.le_gt_cases 0 z) as [Hpos | Hneg].
    + rewrite Z.mod_small in Hhigh by lia. lia.
    + rewrite <- (Z.mod_add z 1 (2 ^ 32)) by lia.
      rewrite Z.mod_small by lia. lia.
Qed.

Lemma ToInt32_int (z : Z) (st : State) :
  - 2 ^ 31 <= z < 2 ^ 31 -> ToInt32 (int z) st = Ret z st.
Proof.
  intros Hz. unfold ToInt32, ToNumber, bind, gets, lift, ret. cbn.
  by rewrite Z.quot_1_r, wrap32_small.
Qed.

Lemma bitop_int (f : Z -> Z -> Z) (a b : Z) (st : State) :
  - 2 ^ 31 <= a < 2 ^ 31 -> - 2 ^ 31 <= b < 2 ^ 31 ->
  bitop f (int a) (int b) st = Ret (int (f a b)) st.
Proof.
  intros Ha Hb. unfold bitop, bind. by rewrite !ToInt32_int.
Qed.

Lemma zrange_from_forall (P : Z -> bool) (count : nat) : forall lo z,
  List.forallb P (zrange_from lo count) = true ->
  lo <= z < lo + Z.of_nat count -> P z = true.
Proof.
  induction count as [| count IH]; intros lo z Hall Hz; [lia |].
  cbn [zrange_from List.forallb] in Hall.
  apply andb_true_iff in Hall as [Hlo Hrest].
  destruct (decide (z = lo)) as [-> | Hne]; [done |].
  apply (IH (lo + 1)); [done | lia].
Qed.

Lemma zrange_forall (P : Z -> bool) (n : Z) :
  List.forallb P (zrange n) = true -> forall z, 0 <= z < n -> P z = true.
Proof.
  intros Hall z Hz. apply (zrange_from_forall P (Z.to_nat n) 0); [done | lia].
Qed.

(** The two bytes of a 16-bit word are put together again by
    [(byte1 << 8) | byte2]. *)
Lemma opcode_of_word (w : Z) (st : State) :
  0 <= w < 65536 -> opcode_of (high_byte w) (low_byte w) st = Ret w st.
Proof.
  intros Hw.
  unfold opcode_of, js_shl, bitop, ToInt32, ToNumber, bind, gets, lift, ret,
    high_byte, low_byte.
  cbn. f_equal. apply Z.eqb_eq. revert w Hw.
  apply (zrange_forall _ 65536). vm_compute. reflexivity.
Qed.

(** Computing the opcode reads the heap and writes nothing. *)
Lemma opcode_of_pure (byte1 byte2 : JsVal) (st st' : State) (opcode : Z) :
  opcode_of byte1 byte2 st = Ret opcode st' -> st' = st.
Proof.
  unfold opcode_of, js_shl, bitop, ToInt32, ToNumber, bind, gets, lift, ret.
  repeat (match goal with
          | |- context [to_number ?h ?a] => destruct (to_number h a)
          end; try discriminate).
  congruence.
Qed.

(** The group nibble and the address of [g000 + nnn]. *)
Lemma address_fields (g nnn : Z) :
  0 <= g < 16 -> 0 <= nnn < 4096 ->
  Z.land (g * 4096 + nnn) 0xf000 = g * 4096
  /\ Z.land (g * 4096 + nnn) 0x0fff = nnn.
Proof.
  intros Hg Hn.
  assert (List.forallb
            (fun g => List.forallb
                        (fun nnn =>
                           (Z.land (g * 4096 + nnn) 0xf000 =? g * 4096)
                           && (Z.land (g * 4096 + nnn) 0x0fff =? nnn))
                        (zrange 4096))
            (zrange 16) = true) as Hall by (vm_compute; reflexivity).
  pose proof (zrange_forall _ _ Hall g Hg) as Hrow. cbv beta in Hrow.
  pose proof (zrange_forall _ _ Hrow nnn Hn) as Hboth. cbv beta in Hboth.
  apply andb_true_iff in Hboth as [H1 H2]. split; by apply Z.eqb_eq.
Qed.

Lemma jump_sets_pc (genv : Scope) (random nnn : Z) (st : State) :
  0 <= nnn < 4096 ->
  executeOpcode genv random
    (high_byte (0x1000 + nnn)) (low_byte (0x1000 + nnn)) st
  = Ret tt (set_pc (int nnn) st).
Proof.
  intros Hn. destruct (address_fields 1 nnn ltac:(lia) Hn) as [Hgroup Haddr].
  unfold executeOpcode, bind at 1.
  rewrite opcode_of_word by lia.
  change (0x1000 + nnn) with (1 * 4096 + nnn). rewrite Hgroup, Haddr.
  reflexivity.
Qed.

Lemma alu_dispatch (genv : Scope) (random w : Z) (st : State) :
  0 <= w < 65536 ->
  Z.land w 0xf000 = 0x8000 ->
  executeOpcode genv random (high_byte w) (low_byte w) st
  = execute_alu (Z.land w 0x000f) (Z.land (Z.shiftr w 8) 0x000f)
      (Z.land (Z.shiftr w 4) 0x000f) st.
Proof.
  intros Hw Hgroup. unfold executeOpcode, bind at 1.
  rewrite opcode_of_word by done. by rewrite Hgroup.
Qed.

(** ** Timers *)

Lemma set_delayTimer_same (st : State) : set_delayTimer (delayTimer st) st = st.
Proof. by destruct st. Qed.

Lemma executeDelayTimer_step (st : State) :
  0 <= delayTimer st ->
  executeDelayTimer st = Ret tt (set_delayTimer (Z.max (delayTimer st - 1) 0) st).
Proof.
  intros Hd. unfold executeDelayTimer, bind, gets.
  destruct (Z.gtb_spec (delayTimer st) 0) as [Hpos | Hzero].
  - unfold modify. do 2 f_equal. lia.
  - unfold ret. f_equal.
    replace (Z.max (delayTimer st - 1) 0) with (delayTimer st) by lia.
    symmetry. apply set_delayTimer_same.
Qed.

Lemma times_delay (k : nat) : forall st : State,
  0 <= delayTimer st ->
  times k executeDelayTimer st
  = Ret tt (set_delayTimer (Z.max (delayTimer st - Z.of_nat k) 0) st).
Proof.
  induction k as [| k IH]; intros st Hd.
  - cbn [times]. unfold ret. f_equal.
    replace (Z.max (delayTimer st - Z.of_nat 0) 0) with (delayTimer st) by lia.
    symmetry. apply set_delayTimer_same.
  - cbn [times]. unfold bind at 1. rewrite executeDelayTimer_step by done.
    rewrite IH by (cbn; lia).
    unfold set_delayTimer; cbn. do 2 f_equal. lia.
Qed.

(** C9. Ticking a timer that is at zero changes nothing, for the delay
    timer and for the sound timer alike; and [k] ticks of a delay timer
    that starts at a value [d >= 0] leave [max (d - k) 0], so the timer
    never goes below zero. *)
Theorem timers_stop_at_zero (st : State) (k : nat) :
  0 <= delayTimer st ->
  executeDelayTimer (set_delayTimer 0 st) = Ret tt (set_delayTimer 0 st) /\
  executeSoundTimer (set_soundTimer 0 st) = Ret tt (set_soundTimer 0 st) /\
  times k executeDelayTimer st
  = Ret tt (set_delayTimer (Z.max (delayTimer st - Z.of_nat k) 0) st).
Proof.
  intros Hd. split; [reflexivity |]. split; [reflexivity |].
  by apply times_delay.
Qed.

(** Five ticks from [delayTimer = 3] leave 0. *)
Lemma timers_stop_at_zero_witness :
  0 <= delayTimer (set_delayTimer 3 fresh) /\
  times 5 executeDelayTimer (set_delayTimer 3 fresh)
  = Ret tt (set_delayTimer 0 fresh).
Proof.
  split; [cbn; lia |].
  apply (timers_stop_at_zero (set_delayTimer 3 fresh) 5). cbn; lia.
Defined.

(** ** Opcodes that compute on the register index *)

Lemma immediate_fields (x kk : Z) :
  0 <= x < 16 -> 0 <= kk < 256 ->
  let w := 0x7000 + x * 256 + kk in
  Z.land w 0xf000 = 0x7000
  /\ Z.land (Z.shiftr w 8) 0x000f = x
  /\ Z.land w 0xff = kk.
Proof.
  intros Hx Hkk.
  assert (List.forallb
            (fun x => List.forallb
                        (fun kk =>
                           let w := 0x7000 + x * 256 + kk in
                           (Z.land w 0xf000 =? 0x7000)
                           && (Z.land (Z.shiftr w 8) 0x000f =? x)
                           && (Z.land w 0xff =? kk))
                        (zrange 256))
            (zrange 16) = true) as Hall by (vm_compute; reflexivity).
  pose proof (zrange_forall _ _ Hall x Hx) as Hrow. cbv beta in Hrow.
  pose proof (zrange_forall _ _ Hrow kk Hkk) as Hboth. cbv beta zeta in Hboth.
  apply andb_true_iff in Hboth as [Hboth H3].
  apply andb_true_iff in Hboth as [H1 H2].
  cbv zeta. repeat split; by apply Z.eqb_eq.
Qed.

(** C2. ADD Vx, byte stores the register's index plus [kk]: for every
    register index [x], every immediate [kk] and every state, 7xkk leaves
    [x + kk] in V[x], whatever V[x] held, and does not reduce the sum
    modulo 256. *)
Theorem add_immediate_uses_index (genv : Scope) (random x kk : Z) (st : State) :
  0 <= x < 16 -> 0 <= kk < 256 ->
  let w := 0x7000 + x * 256 + kk in
  executeOpcode genv random (high_byte w) (low_byte w) st
  = Ret tt (set_v (arr_store (v st) (Z.to_nat x) (int (x + kk))) st).
Proof.
  intros Hx Hkk w.
  destruct (immediate_fields x kk Hx Hkk) as (Hgroup & Hreg & Himm).
  fold w in Hgroup, Hreg, Himm.
  unfold executeOpcode, bind at 1.
  rewrite opcode_of_word by (unfold w; lia).
  rewrite Hgroup. cbv zeta. rewrite Hreg, Himm. reflexivity.
Qed.

(** With V1 = 5, 0x7103 leaves 1 + 3 = 4 in V1 (the sum of the value and
    the immediate would be 8). *)
Lemma add_immediate_uses_index_witness :
  executeOpcode [] 0 (int 0x71) (int 0x03) (with_reg 1 (int 5) fresh)
  = Ret tt (with_reg 1 (int 4) fresh).
Proof.
  apply (add_immediate_uses_index [] 0 1 3 (with_reg 1 (int 5) fresh)); lia.
Defined.

(** 0x7fff leaves 15 + 255 = 270 in VF. *)
Lemma add_immediate_exceeds_byte :
  executeOpcode [] 0 (int 0x7f) (int 0xff) fresh
  = Ret tt (with_reg 15 (int 270) fresh).
Proof. reflexivity. Qed.

(** C3. ADD Vx, Vy tests the sum of the two register indexes against 255,
    so the carry branch is never taken: whatever bytes [a] and [b] V0 and
    V1 hold, 0x8014 leaves VF = 0 and V0 = a + b, not reduced. *)
Theorem add_registers_never_carries (a b : Z) (st : State) :
  0 <= a <= 255 -> 0 <= b <= 255 ->
  let regs := <[1%nat := int b]> (<[0%nat := int a]> (replicate 16 VUndef)) in
  executeOpcode [] 0 (int 0x80) (int 0x14) (set_v regs st)
  = Ret tt (set_v (<[15%nat := int 0]> (<[0%nat := int (a + b)]> regs)) st).
Proof.
  intros Ha Hb regs.
  change (int 0x80) with (high_byte 0x8014).
  change (int 0x14) with (low_byte 0x8014).
  rewrite alu_dispatch by (lia || reflexivity).
  change (execute_alu _ _ _) with (execute_alu 4 0 1).
  unfold execute_alu. change (0 + 1 >? 255) with false. cbv iota.
  unfold bind, set_reg, reg, modify, gets.
  cbv -[js_add int]. rewrite js_add_int by lia. reflexivity.
Qed.

(** With V0 = 200 and V1 = 100: VF = 0 and V0 = 300. *)
Lemma add_registers_never_carries_witness :
  executeOpcode [] 0 (int 0x80) (int 0x14)
    (with_reg 1 (int 100) (with_reg 0 (int 200) fresh))
  = Ret tt (with_reg 15 (int 0)
              (with_reg 1 (int 100) (with_reg 0 (int 300) fresh))).
Proof.
  apply (add_registers_never_carries 200 100 fresh); lia.
Defined.

(** C8. SHL Vx stores the masked byte in VF and does not reduce the
    shifted value: whatever byte [a] V0 holds, 0x800e leaves
    VF = a & 0x80 (0 or 128) and V0 = 2 * a (up to 510). *)
Theorem shift_left_keeps_raw_mask (a : Z) (st : State) :
  0 <= a <= 255 ->
  let regs := <[0%nat := int a]> (replicate 16 VUndef) in
  executeOpcode [] 0 (int 0x80) (int 0x0e) (set_v regs st)
  = Ret tt (set_v (<[0%nat := int (2 * a)]>
                     (<[15%nat := int (Z.land a 0x80)]> regs)) st).
Proof.
  intros Ha regs.
  change (int 0x80) with (high_byte 0x800e).
  change (int 0x0e) with (low_byte 0x800e).
  rewrite alu_dispatch by (lia || reflexivity).
  change (execute_alu _ _ _) with (execute_alu 0xe 0 0).
  unfold execute_alu, js_and, js_shl.
  unfold bind, set_reg, reg, modify, gets.
  cbv -[bitop int Z.land wrap32 Z.shiftl Z.modulo]. rewrite bitop_int by lia.
  cbv -[bitop int Z.land wrap32 Z.shiftl Z.modulo].
  rewrite bitop_int by lia.
  change (1 mod 32) with 1. rewrite Z.shiftl_mul_pow2 by lia.
  rewrite wrap32_small by lia.
  replace (a * 2 ^ 1) with (2 * a) by lia. reflexivity.
Qed.

(** With V0 = 0x80: VF = 128 and V0 = 256. *)
Lemma shift_left_keeps_raw_mask_witness :
  executeOpcode [] 0 (int 0x80) (int 0x0e) (with_reg 0 (int 0x80) fresh)
  = Ret tt (with_reg 15 (int 128) (with_reg 0 (int 256) fresh)).
Proof.
  apply (shift_left_keeps_raw_mask 0x80 fresh). lia.
Defined.

(** ** The cycle *)

(** C1. A cycle adds 2 to the program counter after every instruction,
    also after a jump: with JP nnn at address 0, one cycle of a fresh
    object leaves [pc = nnn + 2], so the next fetch is two bytes past the
    target. *)
Theorem cycle_after_jump_is_past_target (genv : Scope) (random now nnn : Z) :
  0 <= nnn < 4096 ->
  1000 < now ->
  let program := [high_byte (0x1000 + nnn); low_byte (0x1000 + nnn)] in
  run genv random now (set_memory program fresh)
  = Ret tt (set_lastCommandRun now
              (set_pc (int (nnn + 2)) (set_memory program fresh))).
Proof.
  intros Hn Hnow program. unfold run, bind at 1, gets.
  cbn [lastCommandRun set_memory fresh reset].
  destruct (Z.gtb_spec (now - 0) 1000) as [_ | Hle]; [| lia].
  set (st := set_memory program fresh).
  unfold bind at 1. change (executeDelayTimer st) with (Ret tt st).
  unfold bind at 1. change (executeSoundTimer st) with (Ret tt st).
  unfold bind at 1. unfold bind at 1.
  change (js_get (memory st) (pc st)) with (@ret JsVal (high_byte (0x1000 + nnn))).
  unfold bind at 1, ret at 1.
  unfold bind at 1. rewrite (js_add_int 0 1) by (cbn; lia).
  unfold bind at 1.
  change (js_get (memory st) (int (0 + 1)) st)
    with (Ret (low_byte (0x1000 + nnn)) st).
  unfold bind at 1. rewrite jump_sets_pc by done.
  unfold bind at 1, skip, bind at 1, gets. cbn [pc set_pc].
  unfold bind at 1. rewrite js_add_int by lia.
  reflexivity.
Qed.

(** JP 0x234: the cycle ends with [pc = 0x236]. *)
Lemma cycle_after_jump_is_past_target_witness :
  run [] 0 1001 (set_memory [int 0x12; int 0x34] fresh)
  = Ret tt (set_lastCommandRun 1001
              (set_pc (int 0x236) (set_memory [int 0x12; int 0x34] fresh))).
Proof.
  apply (cycle_after_jump_is_past_target [] 0 1001 0x234); lia.
Defined.

(** The other cases of the cycle: LD V0, 5 advances by 2, and a taken
    SE V0, 0 advances by 4. *)
Lemma cycle_default_advance :
  run [] 0 1001 (set_memory [int 0x60; int 0x05] fresh)
  = Ret tt (set_lastCommandRun 1001
              (set_pc (int 2)
                 (with_reg 0 (int 5) (set_memory [int 0x60; int 0x05] fresh)))).
Proof. vm_compute. reflexivity. Qed.

Lemma cycle_taken_skip :
  run [] 0 1001 (set_memory [int 0x30; int 0x00] zeroed)
  = Ret tt (set_lastCommandRun 1001
              (set_pc (int 4) (set_memory [int 0x30; int 0x00] zeroed))).
Proof. vm_compute. reflexivity. Qed.


(** ** Drawing *)

(** C4. DRW takes its coordinates from the registers numbered by the loop
    counters and leaves in VF what the last pixel drawn returned.  In
    [draw_state], 0xD231 with the row 0xC0 toggles locations 0 and 1, not
    (10, 5) and (11, 5); the pixel at location 0 is erased, and VF ends
    as 0 because the second pixel was clear. *)
Theorem draw_flag_is_last_pixel :
  executeOpcode [] 0 (int 0xd2) (int 0x31) draw_state
  = Ret tt (with_reg 15 (int 0)
              (set_screen (<[1%nat := int 1]> (screen fresh)) draw_state)).
Proof. vm_compute. reflexivity. Qed.

(** After CLS the entries of the screen are row objects: the same DRW
    then leaves the row object itself in VF, and the two entries it
    touched hold the number 1. *)
Lemma draw_after_clear_flag_is_row :
  (exec executeOpcode [] 0 (int 0x00) (int 0xe0);
   executeOpcode [] 0 (int 0xd2) (int 0x31)) draw_state
  = Ret tt (with_reg 15 (VRef 0)
              (set_screen
                 (<[1%nat := int 1]> (<[0%nat := int 1]> (replicate 63 (VRef 0))))
                 (set_heap [replicate 31 (int 0)] draw_state))).
Proof. vm_compute. reflexivity. Qed.

(** C6. [drawPixel] subtracts 63 once from an x above 63 and addresses
    the screen with a stride of 63: the eight pixels of a row drawn from
    x = 60 at y = 0 land on locations 60, 61, 62, 63, 1, 2, 3 and 4;
    location 0 stays clear. *)
Theorem draw_row_from_60 :
  draw_each [60; 61; 62; 63; 64; 65; 66; 67] 0 fresh
  = Ret tt (set_screen
              (foldr (fun n scr => <[n := int 1]> scr) (screen fresh)
                 [1; 2; 3; 4; 60; 61; 62; 63]%nat)
              fresh).
Proof. vm_compute. reflexivity. Qed.

(** The same through the opcode: DRW with the row 0x7F in [edge_state]
    draws at x = 61 .. 67, y = 0 and toggles locations 61, 62, 63, 1, 2, 3
    and 4. *)
Lemma draw_opcode_wraps_by_63 :
  executeOpcode [] 0 (int 0xd0) (int 0x01) edge_state
  = Ret tt (set_v (<[15%nat := int 0]> (v edge_state))
              (set_screen
                 (foldr (fun n scr => <[n := int 1]> scr) (screen fresh)
                    [1; 2; 3; 4; 61; 62; 63]%nat)
                 edge_state)).
Proof. vm_compute. reflexivity. Qed.

(** The screen that [reset] builds has 63 * 31 cells. *)
Lemma reset_screen_size (now : Z) : length (screen (reset now)) = 1953%nat.
Proof. reflexivity. Qed.

Lemma drawPixel_at_64 :
  drawPixel (int 64) (int 0) fresh
  = Ret (int 0) (set_screen (<[1%nat := int 1]> (screen fresh)) fresh).
Proof. vm_compute. reflexivity. Qed.

(** Location 63 is both (63, 0) and (0, 1). *)
Lemma drawPixel_column_63_is_next_row :
  drawPixel (int 63) (int 0) fresh = drawPixel (int 0) (int 1) fresh.
Proof. vm_compute. reflexivity. Qed.

(** ** Clearing the screen *)

(** C5. After CLS the screen is an array of 63 references to one row of
    31 cells; cell (1, 0) reads 0, and writing 1 to cell (0, 0) makes cell
    (1, 0) read 1 as well. *)
Theorem cleared_rows_are_one_object (genv : Scope) (random : Z) (st : State) :
  exists st1 st2,
    executeOpcode genv random (int 0x00) (int 0xe0) st = Ret tt st1
    /\ screen st1 = replicate 63 (VRef (length (heap st)))
    /\ heap st1 = heap st ++ [replicate 31 (int 0)]
    /\ read_cell 1 0 st1 = Ret (int 0) st1
    /\ write_cell 0 0 (int 1) st1 = Ret tt st2
    /\ read_cell 1 0 st2 = Ret (int 1) st2.
Proof.
  set (row := length (heap st)).
  set (st1 := set_screen (replicate 63 (VRef row))
                (set_heap (heap st ++ [replicate 31 (int 0)]) st)).
  exists st1,
    (set_heap (<[row := arr_store (replicate 31 (int 0)) 0 (int 1)]> (heap st1))
       st1).
  split; [vm_compute; reflexivity |]. split; [reflexivity |].
  split; [reflexivity |].
  assert (forall cells : list JsVal,
            (heap st ++ [cells]) !! row = Some cells) as Hrow.
  { intros cells. by apply list_lookup_middle. }
  split; [| split].
  - unfold read_cell, bind, gets, lift, ret. cbn. by rewrite Hrow.
  - unfold write_cell, bind, gets, lift, modify. cbn. by rewrite Hrow.
  - unfold read_cell, bind, gets, lift, ret. cbn.
    rewrite list_lookup_insert_eq; [reflexivity |].
    rewrite length_app. cbn. lia.
Qed.

(** ** Subroutines *)

(** C7, as the code has it. CALL 2nnn never fails, whatever the stack
    holds: it adds 1 to the stack pointer, appends the current program
    counter to the stack array and sets the program counter to [nnn].  RET
    never fails either: it returns normally with the stack pointer one
    lower and the stack array as it was. *)
Theorem call_and_ret_never_fail (genv : Scope) (random nnn : Z) (st : State) :
  0 <= nnn < 4096 ->
  executeOpcode genv random
    (high_byte (0x2000 + nnn)) (low_byte (0x2000 + nnn)) st
  = Ret tt (set_pc (int nnn)
              (set_stack (stack st ++ [pc st]) (set_sp (sp st + 1) st)))
  /\ exists st',
       executeOpcode genv random (int 0x00) (int 0xee) st = Ret tt st'
       /\ sp st' = sp st - 1 /\ stack st' = stack st.
Proof.
  intros Hn. split.
  - destruct (address_fields 2 nnn ltac:(lia) Hn) as [Hgroup Haddr].
    unfold executeOpcode, bind at 1.
    rewrite opcode_of_word by lia.
    change (0x2000 + nnn) with (2 * 4096 + nnn). rewrite Hgroup, Haddr.
    reflexivity.
  - exists (set_sp (sp st - 1) (set_pc (arr_at (stack st) (sp st)) st)).
    split; [vm_compute; reflexivity |]. split; reflexivity.
Qed.

(** CALL 0x345 on a fresh object. *)
Lemma call_and_ret_never_fail_witness :
  executeOpcode [] 0 (int 0x23) (int 0x45) fresh
  = Ret tt (set_pc (int 0x345)
              (set_stack (stack fresh ++ [int 0]) (set_sp 1 fresh))).
Proof.
  apply (call_and_ret_never_fail [] 0 0x345 fresh). lia.
Defined.

(** C7, as the claim has it, fails: after sixteen calls the seventeenth
    returns normally, and so does a RET on the stack of a fresh object. *)
Lemma call_on_full_stack_returns :
  sp (after_calls 16) = 16
  /\ executeOpcode [] 0 (int 0x22) (int 0x00) (after_calls 16)
     = Ret tt (set_pc (int 0x200)
                 (set_stack (stack (after_calls 16) ++ [int 0x200])
                    (set_sp 17 (after_calls 16))))
  /\ executeOpcode [] 0 (int 0x00) (int 0xee) fresh
     = Ret tt (set_sp (-1) (set_pc VUndef fresh)).
Proof. vm_compute. repeat split; reflexivity. Qed.

(** CALL appends after the sixteen holes the stack array starts with, and
    RET reads the entry at the stack pointer, which is one of the holes:
    a RET right after a CALL leaves [undefined] in the program counter. *)
Lemma call_then_ret_loses_pc :
  (exec executeOpcode [] 0 (int 0x22) (int 0x00);
   executeOpcode [] 0 (int 0x00) (int 0xee)) fresh
  = Ret tt (set_pc VUndef (set_stack (stack fresh ++ [int 0]) fresh)).
Proof. vm_compute. reflexivity. Qed.

(** In a cycle the program counter that CALL saves is still the address
    of the CALL instruction itself, and the cycle ends two bytes past the
    target: CALL 0x200 at address 0. *)
Lemma cycle_call_saves_own_address :
  run [] 0 1001 (set_memory [int 0x22; int 0x00] fresh)
  = Ret tt (set_lastCommandRun 1001
              (set_pc (int 0x202)
                 (set_stack (stack fresh ++ [int 0])
                    (set_sp 1 (set_memory [int 0x22; int 0x00] fresh))))).
Proof. vm_compute. reflexivity. Qed.

(** ** Free identifiers *)

(** C10. Whenever the opcode's top nibble is 9 (SNE Vx, Vy) or C (RND) and
    the host's global object has no property [x], [executeOpcode] throws a
    ReferenceError, and the fields are what they were before the call. *)
Theorem free_index_throws (genv : Scope) (random : Z) (byte1 byte2 : JsVal)
    (st st' : State) (opcode : Z) :
  opcode_of byte1 byte2 st = Ret opcode st' ->
  Z.land opcode 0xf000 = 0x9000 \/ Z.land opcode 0xf000 = 0xc000 ->
  scope_find "x" genv = None ->
  executeOpcode genv random byte1 byte2 st = Raise ReferenceError st.
Proof.
  intros Hop Hnib Hx.
  pose proof (opcode_of_pure _ _ _ _ _ Hop) as ->.
  unfold executeOpcode, bind at 1. rewrite Hop.
  destruct Hnib as [-> | ->]; unfold bind at 1, resolve; cbn; by rewrite Hx.
Qed.

(** SNE V1, V2 and RND V1, 0xff on a fresh object. *)
Lemma free_index_throws_witness :
  executeOpcode [] 7 (int 0x91) (int 0x20) fresh = Raise ReferenceError fresh
  /\ executeOpcode [] 7 (int 0xc1) (int 0xff) fresh = Raise ReferenceError fresh.
Proof.
  split.
  - apply (free_index_throws [] 7 (int 0x91) (int 0x20) fresh fresh 0x9120);
      [reflexivity | left; reflexivity | reflexivity].
  - apply (free_index_throws [] 7 (int 0xc1) (int 0xff) fresh fresh 0xc1ff);
      [reflexivity | right; reflexivity | reflexivity].
Defined.

(** When the host does bind [x] and [y], SNE reads the registers they
    name and skips when the two are equal: with [x = 0], [y = 1] and
    V0 = V1 = 0 the program counter is advanced. *)
Lemma sne_with_host_bindings :
  executeOpcode [("x", int 0); ("y", int 1)]%string 0 (int 0x90) (int 0x10)
    zeroed
  = Ret tt (set_pc (int 2) zeroed).
Proof. vm_compute. reflexivity. Qed.

(** ** Integers as JavaScript numbers *)

Lemma Qred_int (z : Z) : Qred (inject_Z z) = inject_Z z.
Proof. apply Qred_iff. cbn. apply Z.gcd_1_r. Qed.

Lemma js_sub_int (a b : Z) (st : State) :
  Z.abs (a - b) < 2 ^ 53 -> js_sub (int a) (int b) st = Ret (int (a - b)) st.
Proof.
  intros Hdiff.
  unfold js_sub, arith, ToNumber, bind, gets, lift, ret, int. cbn.
  unfold num_sub, num_binop, Qminus.
  replace (- inject_Z b)%Q with (inject_Z (- b)) by reflexivity.
  rewrite <- inject_Z_plus. by rewrite exact_int.
Qed.

Lemma js_mul_int (a b : Z) (st : State) :
  Z.abs (a * b) < 2 ^ 53 -> js_mul (int a) (int b) st = Ret (int (a * b)) st.
Proof.
  intros Hprod.
  unfold js_mul, arith, ToNumber, bind, gets, lift, ret, int. cbn.
  unfold num_mul, num_binop. rewrite <- inject_Z_mult. by rewrite exact_int.
Qed.

Lemma js_lt_int (a b : Z) (st : State) :
  js_lt (int a) (int b) st = Ret (a <? b) st.
Proof.
  unfold js_lt, ToNumber, bind, gets, lift, ret, int. cbn.
  unfold Qlt_bool, Qle_bool. cbn. rewrite !Z.mul_1_r.
  f_equal. destruct (Z.leb_spec b a), (Z.ltb_spec a b); (reflexivity || lia).
Qed.

Lemma js_gt_int (a b : Z) (st : State) :
  js_gt (int a) (int b) st = Ret (b <? a) st.
Proof. apply js_lt_int. Qed.

Lemma strict_eq_int (a b : Z) : strict_eq (int a) (int b) = (a =? b).
Proof.
  unfold strict_eq, int, num_eq, Qeq_bool. cbn. by rewrite !Z.mul_1_r.
Qed.

Lemma as_index_int (z : Z) :
  0 <= z < 2 ^ 32 - 1 -> as_index (int z) = Some (Z.to_nat z).
Proof.
  intros Hz. unfold as_index, int. rewrite Qred_int. cbn [inject_Z Qnum Qden].
  destruct (Z.leb_spec 0 z); [| lia].
  destruct (Z.ltb_spec z (2 ^ 32 - 1)); [reflexivity | lia].
Qed.

Lemma js_get_int (arr : list JsVal) (z : Z) (st : State) :
  0 <= z < 2 ^ 32 - 1 -> js_get arr (int z) st = Ret (arr_at arr z) st.
Proof.
  intros Hz. unfold js_get, lift, arr_get, arr_at. cbn [is_object int].
  rewrite as_index_int by done.
  destruct (Z.ltb_spec z 0); [lia | reflexivity].
Qed.

(** ** Arrays that grow *)

Lemma lookup_arr_store_same (arr : list JsVal) (n : nat) (a : JsVal) :
  arr_store arr n a !! n = Some a.
Proof.
  unfold arr_store. destruct (decide (n < length arr)%nat) as [Hin | Hout].
  - by apply list_lookup_insert_eq.
  - rewrite lookup_app_r by lia. rewrite lookup_app_r.
    + rewrite length_replicate. by rewrite Nat.sub_diag.
    + rewrite length_replicate. lia.
Qed.

Lemma lookup_arr_store_other (arr : list JsVal) (n m : nat) (a : JsVal) :
  n <> m ->
  default VUndef (arr_store arr n a !! m) = default VUndef (arr !! m).
Proof.
  intros Hne. unfold arr_store.
  destruct (decide (n < length arr)%nat) as [Hin | Hout].
  - by rewrite list_lookup_insert_ne.
  - destruct (decide (m < length arr)%nat) as [Hm | Hm].
    + by rewrite lookup_app_l.
    + rewrite (lookup_ge_None_2 arr m) by lia. rewrite lookup_app_r by lia.
      destruct (decide (m - length arr < n - length arr)%nat) as [Hgap | Hpast].
      * rewrite lookup_app_l by (rewrite length_replicate; lia).
        by rewrite lookup_replicate_2.
      * rewrite lookup_app_r by (rewrite length_replicate; lia).
        rewrite length_replicate.
        destruct (m - length arr - (n - length arr))%nat as [| k] eqn:Hk;
          [lia | reflexivity].
Qed.

Lemma length_arr_store (arr : list JsVal) (n : nat) (a : JsVal) :
  length (arr_store arr n a) = Nat.max (length arr) (S n).
Proof.
  unfold arr_store. destruct (decide (n < length arr)%nat) as [Hin | Hout].
  - rewrite length_insert. lia.
  - rewrite !length_app, length_replicate. cbn. lia.
Qed.

Lemma arr_at_store_same (arr : list JsVal) (x : Z) (a : JsVal) :
  0 <= x -> arr_at (arr_store arr (Z.to_nat x) a) x = a.
Proof.
  intros Hx. unfold arr_at. destruct (Z.ltb_spec x 0); [lia |].
  by rewrite lookup_arr_store_same.
Qed.

Lemma arr_at_store_other (arr : list JsVal) (x y : Z) (a : JsVal) :
  0 <= x -> x <> y ->
  arr_at (arr_store arr (Z.to_nat x) a) y = arr_at arr y.
Proof.
  intros Hx Hne. unfold arr_at. destruct (Z.ltb_spec y 0); [reflexivity |].
  apply lookup_arr_store_other. lia.
Qed.

(** Writing back what a cell holds, inside the array, changes nothing. *)
Lemma arr_store_twice (arr : list JsVal) (n : nat) (a b : JsVal) :
  arr_store (arr_store arr n a) n b = arr_store arr n b.
Proof.
  unfold arr_store at 1.
  destruct (decide (n < length (arr_store arr n a))%nat) as [Hin | Hout].
  - unfold arr_store. destruct (decide (n < length arr)%nat) as [Hn | Hn].
    + by rewrite list_insert_insert_eq.
    + rewrite insert_app_r_alt by lia.
      rewrite insert_app_r_alt by (rewrite length_replicate; lia).
      rewrite length_replicate, Nat.sub_diag. reflexivity.
  - rewrite length_arr_store in Hout. lia.
Qed.

Lemma arr_store_same_value (arr : list JsVal) (n : nat) (a : JsVal) :
  arr !! n = Some a -> arr_store arr n a = arr.
Proof.
  intros Hcell. unfold arr_store.
  destruct (decide (n < length arr)%nat) as [Hin | Hout].
  - by apply list_insert_id.
  - apply lookup_lt_Some in Hcell. lia.
Qed.

(** ** Fields of an instruction word *)

Lemma word_kk_fields (g x kk : Z) :
  0 <= g < 16 -> 0 <= x < 16 -> 0 <= kk < 256 ->
  let w := word_kk g x kk in
  0 <= w < 65536
  /\ Z.land w 0xf000 = g * 4096
  /\ Z.land (Z.shiftr w 8) 0x000f = x
  /\ Z.land w 0x00ff = kk
  /\ Z.land w 0x0fff = x * 256 + kk.
Proof.
  intros Hg Hx Hkk.
  assert (List.forallb
            (fun g => List.forallb
               (fun x => List.forallb
                  (fun kk =>
                     let w := word_kk g x kk in
                     (Z.land w 0xf000 =? g * 4096)
                     && (Z.land (Z.shiftr w 8) 0x000f =? x)
                     && (Z.land w 0x00ff =? kk)
                     && (Z.land w 0x0fff =? x * 256 + kk))
                  (zrange 256))
               (zrange 16))
            (zrange 16) = true) as Hall by (vm_compute; reflexivity).
  pose proof (zrange_forall _ _ Hall g Hg) as Hg'. cbv beta in Hg'.
  pose proof (zrange_forall _ _ Hg' x Hx) as Hx'. cbv beta in Hx'.
  pose proof (zrange_forall _ _ Hx' kk Hkk) as Hw. cbv beta zeta in Hw.
  repeat (apply andb_true_iff in Hw as [Hw ?]).
  cbv zeta. split; [unfold word_kk; lia |].
  repeat split; by apply Z.eqb_eq.
Qed.

Lemma word_xyn_fields (g x y n : Z) :
  0 <= g < 16 -> 0 <= x < 16 -> 0 <= y < 16 -> 0 <= n < 16 ->
  let w := word_xyn g x y n in
  0 <= w < 65536
  /\ Z.land w 0xf000 = g * 4096
  /\ Z.land (Z.shiftr w 8) 0x000f = x
  /\ Z.land (Z.shiftr w 4) 0x000f = y
  /\ Z.land w 0x000f = n.
Proof.
  intros Hg Hx Hy Hn.
  assert (List.forallb
            (fun y => List.forallb
               (fun n =>
                  (Z.land (Z.shiftr (y * 16 + n) 4) 0x000f =? y)
                  && (Z.land (y * 16 + n) 0x000f =? n))
               (zrange 16))
            (zrange 16) = true) as Hall by (vm_compute; reflexivity).
  pose proof (zrange_forall _ _ Hall y Hy) as Hy'. cbv beta in Hy'.
  pose proof (zrange_forall _ _ Hy' n Hn) as Hw. cbv beta in Hw.
  apply andb_true_iff in Hw as [Hhigh Hlow].
  apply Z.eqb_eq in Hhigh, Hlow.
  destruct (word_kk_fields g x (y * 16 + n) Hg Hx ltac:(lia))
    as (Hrange & Hgroup & Hreg & Hbyte & _).
  cbv zeta. unfold word_xyn. repeat split; try done; try lia.
  - (* y: bits 4..7 of the word are bits 4..7 of its low byte *)
    rewrite <- Hhigh at 2. rewrite <- Hbyte at 2.
    apply Z.bits_inj'. intros k Hk.
    rewrite !Z.land_spec, !Z.shiftr_spec, Z.land_spec by lia.
    destruct (Z.testbit 0x000f k) eqn:Hbit; [| by rewrite !andb_false_r].
    rewrite !andb_true_r.
    assert (k < 4) as Hk4.
    { destruct (Z.lt_ge_cases k 4) as [? | Hge]; [done |].
      rewrite (Z.bits_above_log2 15 k) in Hbit by (cbn; lia). discriminate. }
    replace (Z.testbit 0x00ff (k + 4)) with true; [by rewrite andb_true_r |].
    symmetry. change 0x00ff with (Z.ones 8). apply Z.ones_spec_low. lia.
  - rewrite <- Hlow at 2. rewrite <- Hbyte at 2.
    apply Z.bits_inj'. intros k Hk.
    rewrite !Z.land_spec.
    destruct (Z.testbit 0x000f k) eqn:Hbit; [| by rewrite !andb_false_r].
    rewrite !andb_true_r.
    assert (k < 4) as Hk4.
    { destruct (Z.lt_ge_cases k 4) as [? | Hge]; [done |].
      rewrite (Z.bits_above_log2 15 k) in Hbit by (cbn; lia). discriminate. }
    replace (Z.testbit 0x00ff k) with true; [by rewrite andb_true_r |].
    symmetry. change 0x00ff with (Z.ones 8). apply Z.ones_spec_low. lia.
Qed.

(** ** Loads and skips *)

(** Reduces [execute_word] on a word whose group nibble is known to the
    body of its case. *)
Ltac dispatch Hrange Hgroup :=
  unfold execute_word, executeOpcode, bind at 1;
  rewrite opcode_of_word by exact Hrange;
  rewrite Hgroup;
  match goal with
  | |- context [?g * 4096] =>
      let r := eval cbv in (g * 4096) in change (g * 4096) with r
  end;
  cbv beta iota zeta.

Lemma skip_int (p : Z) (st : State) :
  pc st = int p -> Z.abs (p + 2) < 2 ^ 53 ->
  skip st = Ret tt (set_pc (int (p + 2)) st).
Proof.
  intros Hpc Hp. unfold skip, bind at 1, gets. rewrite Hpc.
  unfold bind. by rewrite js_add_int.
Qed.

Lemma load_immediate_bytes (genv : Scope) (random x kk : Z) (st : State) :
  0 <= x < 16 -> 0 <= kk < 256 ->
  executeOpcode genv random (high_byte (word_kk 6 x kk))
    (low_byte (word_kk 6 x kk)) st
  = Ret tt (set_v (arr_store (v st) (Z.to_nat x) (int kk)) st).
Proof.
  intros Hx Hkk.
  destruct (word_kk_fields 6 x kk ltac:(lia) Hx Hkk)
    as (Hrange & Hgroup & Hreg & Hbyte & _).
  unfold executeOpcode, bind at 1. rewrite opcode_of_word by done.
  rewrite Hgroup. change (6 * 4096) with 0x6000. cbv beta iota zeta.
  by rewrite Hreg, Hbyte.
Qed.

Lemma load_immediate_exact (genv : Scope) (random x kk : Z) (st : State) :
  0 <= x < 16 -> 0 <= kk < 256 ->
  execute_word genv random (word_kk 6 x kk) st
  = Ret tt (set_v (arr_store (v st) (Z.to_nat x) (int kk)) st).
Proof. apply load_immediate_bytes. Qed.

(** LD Vx, byte (6xkk), for every register and immediate: afterwards V[x]
    reads [kk], every other register reads what it read before, and no
    other field has changed. *)
Theorem load_immediate_then_read (genv : Scope) (random x kk : Z) (st : State) :
  0 <= x < 16 -> 0 <= kk < 256 ->
  exists regs,
    execute_word genv random (word_kk 6 x kk) st = Ret tt (set_v regs st)
    /\ arr_at regs x = int kk
    /\ forall y, y <> x -> arr_at regs y = arr_at (v st) y.
Proof.
  intros Hx Hkk.
  exists (arr_store (v st) (Z.to_nat x) (int kk)). split; [| split].
  - by apply load_immediate_exact.
  - apply arr_at_store_same. lia.
  - intros y Hy. apply arr_at_store_other; [lia | done].
Qed.

Lemma load_immediate_then_read_witness :
  exists regs,
    execute_word [] 0 0x6a2c fresh = Ret tt (set_v regs fresh)
    /\ arr_at regs 10 = int 0x2c
    /\ forall y, y <> 10 -> arr_at regs y = arr_at (v fresh) y.
Proof.
  apply (load_immediate_then_read [] 0 10 0x2c fresh); lia.
Defined.

(** SE Vx, byte (3xkk) and SNE Vx, byte (4xkk) on a register that holds
    an integer [a]: SE adds 2 to the program counter exactly when
    [a = kk], SNE exactly when [a <> kk], and neither changes anything
    else. *)
Theorem skip_on_immediate (genv : Scope) (random x kk a p : Z) (st : State) :
  0 <= x < 16 -> 0 <= kk < 256 ->
  arr_at (v st) x = int a ->
  pc st = int p -> Z.abs (p + 2) < 2 ^ 53 ->
  execute_word genv random (word_kk 3 x kk) st
  = Ret tt (if a =? kk then set_pc (int (p + 2)) st else st)
  /\ execute_word genv random (word_kk 4 x kk) st
     = Ret tt (if a =? kk then st else set_pc (int (p + 2)) st).
Proof.
  intros Hx Hkk Ha Hpc Hp. split.
  - destruct (word_kk_fields 3 x kk ltac:(lia) Hx Hkk)
      as (Hrange & Hgroup & Hreg & Hbyte & _).
    dispatch Hrange Hgroup. rewrite Hreg, Hbyte.
    unfold bind, reg, gets. rewrite Ha, strict_eq_int.
    destruct (a =? kk); [by apply skip_int | reflexivity].
  - destruct (word_kk_fields 4 x kk ltac:(lia) Hx Hkk)
      as (Hrange & Hgroup & Hreg & Hbyte & _).
    dispatch Hrange Hgroup. rewrite Hreg, Hbyte.
    unfold bind, reg, gets. rewrite Ha, strict_eq_int.
    destruct (a =? kk); [reflexivity | by apply skip_int].
Qed.

Lemma skip_on_immediate_witness :
  execute_word [] 0 0x3005 (with_reg 0 (int 5) fresh)
  = Ret tt (set_pc (int 2) (with_reg 0 (int 5) fresh))
  /\ execute_word [] 0 0x4005 (with_reg 0 (int 5) fresh)
     = Ret tt (with_reg 0 (int 5) fresh).
Proof.
  apply (skip_on_immediate [] 0 0 5 5 0 (with_reg 0 (int 5) fresh));
    (lia || reflexivity).
Defined.

(** On a register that was never written (it reads [undefined]) SE never
    skips and SNE always skips, whatever the immediate. *)
Theorem skip_on_unset_register (genv : Scope) (random x kk p : Z) (st : State) :
  0 <= x < 16 -> 0 <= kk < 256 ->
  arr_at (v st) x = VUndef ->
  pc st = int p -> Z.abs (p + 2) < 2 ^ 53 ->
  execute_word genv random (word_kk 3 x kk) st = Ret tt st
  /\ execute_word genv random (word_kk 4 x kk) st
     = Ret tt (set_pc (int (p + 2)) st).
Proof.
  intros Hx Hkk Ha Hpc Hp. split.
  - destruct (word_kk_fields 3 x kk ltac:(lia) Hx Hkk)
      as (Hrange & Hgroup & Hreg & Hbyte & _).
    dispatch Hrange Hgroup. rewrite Hreg, Hbyte.
    unfold bind, reg, gets. by rewrite Ha.
  - destruct (word_kk_fields 4 x kk ltac:(lia) Hx Hkk)
      as (Hrange & Hgroup & Hreg & Hbyte & _).
    dispatch Hrange Hgroup. rewrite Hreg, Hbyte.
    unfold bind, reg, gets. rewrite Ha. cbn [strict_eq negb int].
    by apply skip_int.
Qed.

Lemma skip_on_unset_register_witness :
  execute_word [] 0 0x3000 fresh = Ret tt fresh
  /\ execute_word [] 0 0x4000 fresh = Ret tt (set_pc (int 2) fresh).
Proof.
  apply (skip_on_unset_register [] 0 0 0 0 fresh); (lia || reflexivity).
Defined.

(** SE Vx, Vy (5xy0) on two registers that hold integers skips exactly
    when they are equal. *)
Theorem skip_on_equal_registers (genv : Scope) (random x y a b p : Z)
    (st : State) :
  0 <= x < 16 -> 0 <= y < 16 ->
  arr_at (v st) x = int a -> arr_at (v st) y = int b ->
  pc st = int p -> Z.abs (p + 2) < 2 ^ 53 ->
  execute_word genv random (word_xyn 5 x y 0) st
  = Ret tt (if a =? b then set_pc (int (p + 2)) st else st).
Proof.
  intros Hx Hy Ha Hb Hpc Hp.
  destruct (word_xyn_fields 5 x y 0 ltac:(lia) Hx Hy ltac:(lia))
    as (Hrange & Hgroup & Hregx & Hregy & _).
  dispatch Hrange Hgroup. rewrite Hregx, Hregy.
  unfold bind, reg, gets. rewrite Ha, Hb, strict_eq_int.
  destruct (a =? b); [by apply skip_int | reflexivity].
Qed.

Lemma skip_on_equal_registers_witness :
  execute_word [] 0 0x5010 zeroed = Ret tt (set_pc (int 2) zeroed).
Proof.
  apply (skip_on_equal_registers [] 0 0 1 0 0 0 zeroed); (lia || reflexivity).
Defined.

(** SE Vx, Vx compares a register with itself, and yet does not always
    skip: it skips unless the register holds NaN (which ADD Vx, Vy leaves
    behind when a register was never written). *)
Theorem skip_on_same_register (genv : Scope) (random x p : Z) (st : State) :
  0 <= x < 16 ->
  pc st = int p -> Z.abs (p + 2) < 2 ^ 53 ->
  execute_word genv random (word_xyn 5 x x 0) st
  = Ret tt (match arr_at (v st) x with
            | VNum NaN => st
            | _ => set_pc (int (p + 2)) st
            end).
Proof.
  intros Hx Hpc Hp.
  destruct (word_xyn_fields 5 x x 0 ltac:(lia) Hx Hx ltac:(lia))
    as (Hrange & Hgroup & Hregx & Hregy & _).
  dispatch Hrange Hgroup. rewrite Hregx, Hregy.
  unfold bind, reg, gets.
  destruct (arr_at (v st) x) as [| [| q] | l | f]; cbn [strict_eq num_eq].
  - by apply skip_int.
  - reflexivity.
  - rewrite Qeq_bool_refl. by apply skip_int.
  - rewrite bool_decide_eq_true_2 by done. by apply skip_int.
  - rewrite bool_decide_eq_true_2 by done. by apply skip_int.
Qed.

Lemma skip_on_same_register_witness :
  execute_word [] 0 0x5330 (with_reg 3 (VNum NaN) fresh)
  = Ret tt (with_reg 3 (VNum NaN) fresh).
Proof.
  apply (skip_on_same_register [] 0 3 0 (with_reg 3 (VNum NaN) fresh));
    (lia || reflexivity).
Defined.

(** ** The register group *)

Ltac simpl_fields :=
  cbn [memory stack pc sp v i delayTimer soundTimer lastCommandRun screen heap
       set_memory set_stack set_pc set_sp set_v set_i set_delayTimer
       set_soundTimer set_lastCommandRun set_screen set_heap].

(** One statement of a method body: the head [bind] is opened, and reads
    and writes of fields are carried out. *)
Ltac mstep :=
  unfold bind at 1; unfold reg, set_reg, gets, modify; cbv beta iota;
  simpl_fields.

Ltac alu_case n Hx Hy :=
  match goal with
  | |- execute_word _ _ (word_xyn 8 ?x ?y n) ?st = _ =>
      let Hrange := fresh "Hrange" in
      let Hgroup := fresh "Hgroup" in
      let Hregx := fresh "Hregx" in
      let Hregy := fresh "Hregy" in
      let Hlow := fresh "Hlow" in
      destruct (word_xyn_fields 8 x y n ltac:(lia) Hx Hy ltac:(lia))
        as (Hrange & Hgroup & Hregx & Hregy & Hlow);
      unfold execute_word; rewrite alu_dispatch by (exact Hrange || exact Hgroup);
      rewrite Hregx, Hregy, Hlow; unfold execute_alu; cbv beta iota
  end.

Lemma byte_bitwise (a b : Z) :
  0 <= a <= 255 -> 0 <= b <= 255 ->
  0 <= Z.lor a b <= 255 /\ 0 <= Z.land a b <= 255 /\ 0 <= Z.lxor a b <= 255.
Proof.
  intros Ha Hb.
  assert (List.forallb
            (fun a => List.forallb
               (fun b =>
                  (0 <=? Z.lor a b) && (Z.lor a b <=? 255)
                  && (0 <=? Z.land a b) && (Z.land a b <=? 255)
                  && (0 <=? Z.lxor a b) && (Z.lxor a b <=? 255))
               (zrange 256))
            (zrange 256) = true) as Hall by (vm_compute; reflexivity).
  pose proof (zrange_forall _ _ Hall a ltac:(lia)) as Ha'. cbv beta in Ha'.
  pose proof (zrange_forall _ _ Ha' b ltac:(lia)) as Hw. cbv beta in Hw.
  repeat (apply andb_true_iff in Hw as [Hw ?]). lia.
Qed.

(** OR, AND and XOR (8xy1, 8xy2, 8xy3) on two registers that hold bytes
    [a] and [b]: V[x] receives the bitwise result, which is a byte again,
    and nothing else changes (VF included). *)
Theorem bitwise_on_bytes (genv : Scope) (random x y a b : Z) (st : State) :
  0 <= x < 16 -> 0 <= y < 16 ->
  arr_at (v st) x = int a -> arr_at (v st) y = int b ->
  0 <= a <= 255 -> 0 <= b <= 255 ->
  let put r := Ret tt (set_v (arr_store (v st) (Z.to_nat x) (int r)) st) in
  execute_word genv random (word_xyn 8 x y 1) st = put (Z.lor a b)
  /\ execute_word genv random (word_xyn 8 x y 2) st = put (Z.land a b)
  /\ execute_word genv random (word_xyn 8 x y 3) st = put (Z.lxor a b)
  /\ 0 <= Z.lor a b <= 255
  /\ 0 <= Z.land a b <= 255
  /\ 0 <= Z.lxor a b <= 255.
Proof.
  intros Hx Hy Ha Hb Hbytea Hbyteb put.
  split; [| split; [| split; [| by apply byte_bitwise]]].
  - alu_case 1 Hx Hy. mstep. mstep. rewrite Ha, Hb.
    unfold bind at 1, js_or. by rewrite bitop_int by lia.
  - alu_case 2 Hx Hy. mstep. mstep. rewrite Ha, Hb.
    unfold bind at 1, js_and. by rewrite bitop_int by lia.
  - alu_case 3 Hx Hy. mstep. mstep. rewrite Ha, Hb.
    unfold bind at 1, js_xor. by rewrite bitop_int by lia.
Qed.

Lemma bitwise_on_bytes_witness :
  execute_word [] 0 0x8011 (with_reg 1 (int 0x0f) (with_reg 0 (int 0xf0) fresh))
  = Ret tt (with_reg 0 (int 0xff)
              (with_reg 1 (int 0x0f) (with_reg 0 (int 0xf0) fresh))).
Proof.
  apply (bitwise_on_bytes [] 0 0 1 0xf0 0x0f
           (with_reg 1 (int 0x0f) (with_reg 0 (int 0xf0) fresh)));
    (lia || reflexivity).
Defined.

(** A register that was never written counts as 0 in OR, AND and XOR: with
    V[y] unset and a byte [a] in V[x], OR and XOR leave [a] and AND leaves
    0. *)
Theorem bitwise_with_unset_register (genv : Scope) (random x y a : Z)
    (st : State) :
  0 <= x < 16 -> 0 <= y < 16 ->
  arr_at (v st) x = int a -> arr_at (v st) y = VUndef ->
  0 <= a <= 255 ->
  let put r := Ret tt (set_v (arr_store (v st) (Z.to_nat x) (int r)) st) in
  execute_word genv random (word_xyn 8 x y 1) st = put a
  /\ execute_word genv random (word_xyn 8 x y 2) st = put 0
  /\ execute_word genv random (word_xyn 8 x y 3) st = put a.
Proof.
  intros Hx Hy Ha Hb Hbytea put.
  assert (forall f : Z -> Z -> Z,
            bitop f (int a) VUndef st = Ret (int (f a 0)) st) as Hop.
  { intros f. unfold bitop, bind at 1. rewrite ToInt32_int by lia.
    reflexivity. }
  split; [| split].
  - alu_case 1 Hx Hy. mstep. mstep. rewrite Ha, Hb.
    unfold bind at 1, js_or. rewrite Hop. by rewrite Z.lor_0_r.
  - alu_case 2 Hx Hy. mstep. mstep. rewrite Ha, Hb.
    unfold bind at 1, js_and. rewrite Hop. by rewrite Z.land_0_r.
  - alu_case 3 Hx Hy. mstep. mstep. rewrite Ha, Hb.
    unfold bind at 1, js_xor. rewrite Hop. by rewrite Z.lxor_0_r.
Qed.

Lemma bitwise_with_unset_register_witness :
  execute_word [] 0 0x8012 (with_reg 0 (int 0xf0) fresh)
  = Ret tt (with_reg 0 (int 0) fresh).
Proof.
  apply (bitwise_with_unset_register [] 0 0 1 0xf0 (with_reg 0 (int 0xf0) fresh));
    (lia || reflexivity).
Defined.

Lemma sub_body (x y a b : Z) (st : State) :
  0 <= x < 15 -> 0 <= y < 15 ->
  arr_at (v st) x = int a -> arr_at (v st) y = int b ->
  0 <= a <= 255 -> 0 <= b <= 255 ->
  (do vx <- reg x; do vy <- reg y;
   do diff <- js_sub vx vy;
   exec set_reg x diff;
   do vx <- reg x;
   do neg <- js_lt vx (int 0);
   if neg : bool then
     do vx <- reg x; do r <- js_add vx (int 256); set_reg x r
   else ret tt) st
  = Ret tt (set_v (arr_store (v st) (Z.to_nat x) (int ((a - b) mod 256))) st).
Proof.
  intros Hx Hy Ha Hb Hbytea Hbyteb.
  mstep. mstep. rewrite Ha, Hb.
  unfold bind at 1. rewrite js_sub_int by lia.
  mstep. mstep. rewrite arr_at_store_same by lia.
  unfold bind at 1. rewrite js_lt_int.
  destruct (Z.ltb_spec (a - b) 0) as [Hneg | Hpos].
  - mstep. rewrite arr_at_store_same by lia.
    unfold bind at 1. rewrite js_add_int by lia. cbv beta iota.
    unfold set_reg, modify. simpl_fields. rewrite arr_store_twice.
    replace ((a - b) mod 256) with (a - b + 256); [reflexivity |].
    symmetry. rewrite <- (Z.mod_add (a - b) 1 256) by lia.
    apply Z.mod_small. lia.
  - unfold ret. rewrite Z.mod_small by lia. reflexivity.
Qed.

(** SUB Vx, Vy (8xy5) on two registers other than VF that hold bytes [a]
    and [b]: VF becomes 1 when [a > b] and 0 otherwise, V[x] becomes
    [(a - b) mod 256], a byte again, and nothing else changes. *)
Theorem subtract_on_bytes (genv : Scope) (random x y a b : Z) (st : State) :
  0 <= x < 15 -> 0 <= y < 15 ->
  arr_at (v st) x = int a -> arr_at (v st) y = int b ->
  0 <= a <= 255 -> 0 <= b <= 255 ->
  execute_word genv random (word_xyn 8 x y 5) st
  = Ret tt (set_v (arr_store
                     (arr_store (v st) 15 (int (if b <? a then 1 else 0)))
                     (Z.to_nat x) (int ((a - b) mod 256))) st).
Proof.
  intros Hx Hy Ha Hb Hbytea Hbyteb.
  assert (0 <= x < 16) as Hx16 by lia. assert (0 <= y < 16) as Hy16 by lia.
  alu_case 5 Hx16 Hy16. mstep. mstep. rewrite Ha, Hb.
  unfold bind at 1. rewrite js_gt_int. cbv beta iota.
  unfold bind at 1. cbv beta iota.
  change (Z.to_nat 15) with 15%nat.
  replace (if b <? a then int 1 else int 0)
    with (int (if b <? a then 1 else 0)) by (by destruct (b <? a)).
  etransitivity; [apply (sub_body x y a b); simpl_fields; try done |].
  - by rewrite (arr_at_store_other _ 15 x) by lia.
  - by rewrite (arr_at_store_other _ 15 y) by lia.
  - reflexivity.
Qed.

Lemma subtract_on_bytes_witness :
  execute_word [] 0 0x8015 (with_reg 1 (int 5) (with_reg 0 (int 3) fresh))
  = Ret tt (with_reg 0 (int 254)
              (with_reg 15 (int 0)
                 (with_reg 1 (int 5) (with_reg 0 (int 3) fresh)))).
Proof.
  apply (subtract_on_bytes [] 0 0 1 3 5
           (with_reg 1 (int 5) (with_reg 0 (int 3) fresh)));
    (lia || reflexivity).
Defined.

Lemma subn_body (x y a b : Z) (st : State) :
  0 <= x < 15 -> 0 <= y < 15 ->
  arr_at (v st) x = int a -> arr_at (v st) y = int b ->
  0 <= a <= 255 -> 0 <= b <= 255 ->
  (do vy <- reg y; do vx <- reg x;
   do diff <- js_sub vy vx;
   exec set_reg x diff;
   do vx <- reg x;
   do neg <- js_lt vx (int 0);
   if neg : bool then
     do vx <- reg x; do r <- js_add vx (int 256); set_reg x r
   else ret tt) st
  = Ret tt (set_v (arr_store (v st) (Z.to_nat x) (int ((b - a) mod 256))) st).
Proof.
  intros Hx Hy Ha Hb Hbytea Hbyteb.
  mstep. mstep. rewrite Ha, Hb.
  unfold bind at 1. rewrite js_sub_int by lia.
  mstep. mstep. rewrite arr_at_store_same by lia.
  unfold bind at 1. rewrite js_lt_int.
  destruct (Z.ltb_spec (b - a) 0) as [Hneg | Hpos].
  - mstep. rewrite arr_at_store_same by lia.
    unfold bind at 1. rewrite js_add_int by lia. cbv beta iota.
    unfold set_reg, modify. simpl_fields. rewrite arr_store_twice.
    replace ((b - a) mod 256) with (b - a + 256); [reflexivity |].
    symmetry. rewrite <- (Z.mod_add (b - a) 1 256) by lia.
    apply Z.mod_small. lia.
  - unfold ret. rewrite Z.mod_small by lia. reflexivity.
Qed.

(** SUBN Vx, Vy (8xy7) on two registers other than VF that hold bytes
    [a] and [b]: VF becomes 1 when [b > a] and 0 otherwise, V[x] becomes
    [(b - a) mod 256], and nothing else changes. *)
Theorem reverse_subtract_on_bytes (genv : Scope) (random x y a b : Z)
    (st : State) :
  0 <= x < 15 -> 0 <= y < 15 ->
  arr_at (v st) x = int a -> arr_at (v st) y = int b ->
  0 <= a <= 255 -> 0 <= b <= 255 ->
  execute_word genv random (word_xyn 8 x y 7) st
  = Ret tt (set_v (arr_store
                     (arr_store (v st) 15 (int (if a <? b then 1 else 0)))
                     (Z.to_nat x) (int ((b - a) mod 256))) st).
Proof.
  intros Hx Hy Ha Hb Hbytea Hbyteb.
  assert (0 <= x < 16) as Hx16 by lia. assert (0 <= y < 16) as Hy16 by lia.
  alu_case 7 Hx16 Hy16. mstep. mstep. rewrite Ha, Hb.
  unfold bind at 1. rewrite js_gt_int. cbv beta iota.
  unfold bind at 1. cbv beta iota.
  change (Z.to_nat 15) with 15%nat.
  replace (if a <? b then int 1 else int 0)
    with (int (if a <? b then 1 else 0)) by (by destruct (a <? b)).
  etransitivity; [apply (subn_body x y a b); simpl_fields; try done |].
  - by rewrite (arr_at_store_other _ 15 x) by lia.
  - by rewrite (arr_at_store_other _ 15 y) by lia.
  - reflexivity.
Qed.

Lemma reverse_subtract_on_bytes_witness :
  execute_word [] 0 0x8017 (with_reg 1 (int 5) (with_reg 0 (int 3) fresh))
  = Ret tt (with_reg 0 (int 2)
              (with_reg 15 (int 1)
                 (with_reg 1 (int 5) (with_reg 0 (int 3) fresh)))).
Proof.
  apply (reverse_subtract_on_bytes [] 0 0 1 3 5
           (with_reg 1 (int 5) (with_reg 0 (int 3) fresh)));
    (lia || reflexivity).
Defined.

Lemma arith_on_numbers (f : Num -> Num -> option Num) (m n : Num) (st : State) :
  arith f (VNum m) (VNum n) st
  = match f m n with Some r => Ret (VNum r) st | None => Unmodelled end.
Proof. unfold arith, ToNumber, bind, gets, lift, ret. cbn. by destruct (f m n). Qed.

(** Half of a byte, as the division computes it. *)
Lemma half_of_byte (a : Z) :
  0 <= a <= 255 ->
  num_div (Fin (inject_Z a)) (Fin (inject_Z 2))
  = Some (Fin (if Z.even a then inject_Z (a / 2) else a # 2)).
Proof.
  intros Ha.
  assert (List.forallb
            (fun a =>
               match num_div (Fin (inject_Z a)) (Fin (inject_Z 2)) with
               | Some (Fin q) =>
                   if Z.even a
                   then (Qnum q =? a / 2) && Pos.eqb (Qden q) 1
                   else (Qnum q =? a) && Pos.eqb (Qden q) 2
               | _ => false
               end)
            (zrange 256) = true) as Hall by (vm_compute; reflexivity).
  pose proof (zrange_forall _ _ Hall a ltac:(lia)) as Hq. cbv beta in Hq.
  destruct (num_div (Fin (inject_Z a)) (Fin (inject_Z 2))) as [[| [n d]] |];
    try discriminate.
  cbn [Qnum Qden] in Hq. destruct (Z.even a).
  - apply andb_true_iff in Hq as [Hn Hd].
    apply Z.eqb_eq in Hn. apply Pos.eqb_eq in Hd. by subst.
  - apply andb_true_iff in Hq as [Hn Hd].
    apply Z.eqb_eq in Hn. apply Pos.eqb_eq in Hd. by subst.
Qed.

Lemma low_bit_of_byte (a : Z) :
  0 <= a <= 255 ->
  (if strict_eq (int (Z.land a 1)) (int 1) then int 1 else int 0)
  = int (a mod 2).
Proof.
  intros Ha. rewrite strict_eq_int.
  change 1 with (Z.ones 1) at 1. rewrite Z.land_ones by lia.
  change (2 ^ 1) with 2.
  pose proof (Z.mod_pos_bound a 2 ltac:(lia)) as Hbit.
  destruct (Z.eqb_spec (a mod 2) 1) as [-> | Hne]; [reflexivity |].
  replace (a mod 2) with 0 by lia. reflexivity.
Qed.

(** SHR Vx (8xy6) on a register other than VF that holds a byte [a]: VF
    becomes the low bit of [a], and V[x] becomes [a / 2] as a fraction,
    so for an odd [a] the register holds a number that is no integer. *)
Theorem shift_right_halves_exactly (genv : Scope) (random x y a : Z)
    (st : State) :
  0 <= x < 15 -> 0 <= y < 16 ->
  arr_at (v st) x = int a ->
  0 <= a <= 255 ->
  execute_word genv random (word_xyn 8 x y 6) st
  = Ret tt (set_v (arr_store
                     (arr_store (v st) 15 (int (a mod 2)))
                     (Z.to_nat x)
                     (VNum (Fin (if Z.even a then inject_Z (a / 2)
                                 else a # 2)))) st).
Proof.
  intros Hx Hy Ha Hbytea.
  assert (0 <= x < 16) as Hx16 by lia.
  alu_case 6 Hx16 Hy. mstep. rewrite Ha.
  unfold bind at 1, js_and. rewrite bitop_int by lia. cbv beta iota.
  mstep. rewrite low_bit_of_byte by done.
  change (Z.to_nat 15) with 15%nat.
  mstep. rewrite (arr_at_store_other _ 15 x) by lia. rewrite Ha.
  unfold bind at 1, js_div, int at 1 2. rewrite arith_on_numbers.
  rewrite half_of_byte by done. reflexivity.
Qed.

Lemma shift_right_halves_exactly_witness :
  execute_word [] 0 0x8006 (with_reg 0 (int 3) fresh)
  = Ret tt (with_reg 0 (VNum (Fin (3 # 2)))
              (with_reg 15 (int 1) (with_reg 0 (int 3) fresh))).
Proof.
  apply (shift_right_halves_exactly [] 0 0 0 3 (with_reg 0 (int 3) fresh));
    (lia || reflexivity).
Defined.

(** ** What no instruction does *)

Lemma frame_refl (st : State) : frame st st.
Proof.
  unfold frame. repeat split; try reflexivity; exists []; by rewrite app_nil_r.
Qed.

Lemma frame_trans (st1 st2 st3 : State) :
  frame st1 st2 -> frame st2 st3 -> frame st1 st3.
Proof.
  intros (Hm & Hd & Hs & Hl & [p Hp] & [a Ha] & Hsp)
         (Hm' & Hd' & Hs' & Hl' & [p' Hp'] & [a' Ha'] & Hsp').
  unfold frame. repeat split; try congruence; try lia.
  - exists (p ++ p'). rewrite Hp', Hp. by rewrite app_assoc.
  - exists (a ++ a'). rewrite Ha', Ha. by rewrite app_assoc.
Qed.

Lemma keeps_ret {A} (a : A) : keeps (ret a).
Proof. intros st. apply frame_refl. Qed.

Lemma keeps_gets {A} (f : State -> A) : keeps (gets f).
Proof. intros st. apply frame_refl. Qed.

Lemma keeps_throw {A} (e : JsError) : keeps (@throw A e).
Proof. intros st. apply frame_refl. Qed.

Lemma keeps_lift {A} (o : option A) : keeps (lift o).
Proof. intros st. unfold lift. destruct o; [apply frame_refl | exact I]. Qed.

Lemma keeps_bind {A B} (m : M A) (k : A -> M B) :
  keeps m -> (forall a, keeps (k a)) -> keeps (bind m k).
Proof.
  intros Hm Hk st. unfold bind. specialize (Hm st).
  destruct (m st) as [a st' | e st' |]; [| done | done].
  specialize (Hk a st').
  destruct (k a st') as [b st'' | e st'' |]; [| | done];
    by apply (frame_trans st st' st'').
Qed.

Lemma keeps_modify (f : State -> State) :
  (forall st, frame st (f st)) -> keeps (modify f).
Proof. intros Hf st. apply Hf. Qed.

Ltac frame_tac :=
  unfold frame, above_sp; cbn; repeat split; try reflexivity;
  first [ by eexists
        | exists []; by rewrite app_nil_r
        | rewrite ?length_app; cbn; lia ].

Lemma frame_set_pc (p : JsVal) (st : State) : frame st (set_pc p st).
Proof. frame_tac. Qed.
Lemma frame_set_v (r : list JsVal) (st : State) : frame st (set_v r st).
Proof. frame_tac. Qed.
Lemma frame_set_i (n : Z) (st : State) : frame st (set_i n st).
Proof. frame_tac. Qed.
Lemma frame_set_screen (s : list JsVal) (st : State) : frame st (set_screen s st).
Proof. frame_tac. Qed.

(** RET lowers the stack pointer and leaves the stack array alone. *)
Lemma frame_pop (st : State) : frame st (set_sp (sp st - 1) st).
Proof. frame_tac. Qed.

(** CALL raises the stack pointer and appends one entry. *)
Lemma keeps_call (target : JsVal) :
  keeps (exec modify (fun st => set_sp (sp st + 1) st);
         exec modify (fun st => set_stack (stack st ++ [pc st]) st);
         modify (set_pc target)).
Proof. intros st. unfold bind, modify. frame_tac. Qed.

Create HintDb keeps.
#[local] Hint Resolve keeps_ret keeps_gets keeps_throw keeps_lift : keeps.
#[local] Hint Resolve frame_set_pc frame_set_v frame_set_i
  frame_set_screen frame_pop frame_refl keeps_call : keeps.

(** Splits a computation along its [bind]s, conditionals and matches and
    closes the leaves with the hints. *)
Ltac keeps_tac :=
  repeat match goal with
    | |- keeps _ => solve [auto with keeps]
    | |- keeps (bind _ _) => apply keeps_bind; [| intros ?]
    | |- keeps (modify _) =>
        apply keeps_modify; intros ?; cbn beta; auto with keeps
    | |- keeps (if ?b then _ else _) => destruct b
    | |- keeps (match ?z with _ => _ end) => destruct z
    | |- keeps _ => progress auto with keeps
    end.

Lemma keeps_ToNumber (a : JsVal) : keeps (ToNumber a).
Proof. unfold ToNumber. keeps_tac. Qed.

Lemma keeps_ToInt32 (a : JsVal) : keeps (ToInt32 a).
Proof. unfold ToInt32. pose proof keeps_ToNumber. keeps_tac. Qed.

Lemma keeps_arith f (a b : JsVal) : keeps (arith f a b).
Proof. unfold arith. pose proof keeps_ToNumber. keeps_tac. Qed.

Lemma keeps_js_add (a b : JsVal) : keeps (js_add a b).
Proof. unfold js_add. pose proof keeps_arith. keeps_tac. Qed.

Lemma keeps_js_lt (a b : JsVal) : keeps (js_lt a b).
Proof. unfold js_lt. pose proof keeps_ToNumber. keeps_tac. Qed.

Lemma keeps_bitop f (a b : JsVal) : keeps (bitop f a b).
Proof. unfold bitop. pose proof keeps_ToInt32. keeps_tac. Qed.

#[local] Hint Resolve keeps_ToNumber keeps_ToInt32 keeps_arith keeps_js_add
  keeps_js_lt keeps_bitop : keeps.

Lemma keeps_skip : keeps skip.
Proof. unfold skip. keeps_tac. Qed.

Lemma keeps_reg (x : Z) : keeps (reg x).
Proof. unfold reg. keeps_tac. Qed.

Lemma keeps_set_reg (x : Z) (a : JsVal) : keeps (set_reg x a).
Proof. unfold set_reg. keeps_tac. Qed.

Lemma keeps_resolve chain name : keeps (resolve chain name).
Proof. unfold resolve. keeps_tac. Qed.

Lemma keeps_opcode_of (byte1 byte2 : JsVal) : keeps (opcode_of byte1 byte2).
Proof. unfold opcode_of, js_shl. keeps_tac. Qed.

#[local] Hint Resolve keeps_skip keeps_reg keeps_set_reg keeps_resolve
  keeps_opcode_of : keeps.

Lemma keeps_drawPixel (x y : JsVal) : keeps (drawPixel x y).
Proof.
  unfold drawPixel, js_gt, js_sub, js_mul, js_xor, js_get, js_set.
  keeps_tac.
Qed.

Lemma keeps_clearScreen : keeps clearScreen.
Proof. intros st. unfold clearScreen, bind, gets, modify. frame_tac. Qed.

#[local] Hint Resolve keeps_drawPixel keeps_clearScreen : keeps.

Lemma keeps_draw_columns (todo : nat) : forall x y sprite,
  keeps (draw_columns todo x y sprite).
Proof.
  induction todo as [| todo IH]; intros x y sprite; cbn [draw_columns].
  - auto with keeps.
  - unfold js_and, js_gt, js_shl. keeps_tac.
Qed.

Lemma keeps_draw_rows (todo : nat) : forall y, keeps (draw_rows todo y).
Proof.
  induction todo as [| todo IH]; intros y; cbn [draw_rows].
  - auto with keeps.
  - pose proof keeps_draw_columns. keeps_tac.
Qed.

Lemma keeps_execute_alu (lastByte x y : Z) : keeps (execute_alu lastByte x y).
Proof.
  unfold execute_alu, js_or, js_and, js_xor, js_shl, js_gt, js_sub, js_div.
  keeps_tac.
Qed.

#[local] Hint Resolve keeps_draw_rows keeps_execute_alu : keeps.






Lemma executeDelayTimer_at_zero (st : State) :
  delayTimer st = 0 -> executeDelayTimer st = Ret tt st.
Proof. intros Hz. unfold executeDelayTimer, bind, gets. by rewrite Hz. Qed.

Lemma executeSoundTimer_at_zero (st : State) :
  soundTimer st = 0 -> executeSoundTimer st = Ret tt st.
Proof. intros Hz. unfold executeSoundTimer, bind, gets. by rewrite Hz. Qed.







(** ** Instructions that are not implemented *)

Lemma group_of_word (g w : Z) :
  0 <= g < 16 -> g * 4096 <= w < g * 4096 + 4096 ->
  0 <= w < 65536 /\ Z.land w 0xf000 = g * 4096.
Proof.
  intros Hg Hw. split; [lia |].
  destruct (address_fields g (w - g * 4096) Hg ltac:(lia)) as [Hgroup _].
  by replace (g * 4096 + (w - g * 4096)) with w in Hgroup by lia.
Qed.

Lemma low_nibble (w : Z) : Z.land w 0x000f = w mod 16.
Proof. change 0x000f with (Z.ones 4). by rewrite Z.land_ones by lia. Qed.

(** The key group (Ex9E, ExA1) and the timer, index and memory group
    (Fx07 .. Fx65) do nothing at all, nor do the words 0nnn other than CLS
    and RET, the unassigned register operations 8xy8 .. 8xyD and 8xyF, and
    a DRW of height 0: the state is returned as it was. *)
Theorem unimplemented_words_do_nothing (genv : Scope) (random w : Z)
    (st : State) :
  0xe000 <= w < 0x10000
  \/ (0 <= w < 0x1000 /\ w <> 0x00e0 /\ w <> 0x00ee)
  \/ (0x8000 <= w < 0x9000 /\ (8 <= w mod 16 <= 13 \/ w mod 16 = 15))
  \/ (0xd000 <= w < 0xe000 /\ w mod 16 = 0) ->
  execute_word genv random w st = Ret tt st.
Proof.
  intros [Hkeys | [(Hsys & Hcls & Hret) | [(Halu & Hop) | (Hdraw & Hrows)]]].
  - destruct (Z.lt_ge_cases w 0xf000) as [He | Hf].
    + destruct (group_of_word 14 w ltac:(lia) ltac:(lia)) as [Hrange Hgroup].
      unfold execute_word, executeOpcode, bind at 1.
      rewrite opcode_of_word by done. by rewrite Hgroup.
    + destruct (group_of_word 15 w ltac:(lia) ltac:(lia)) as [Hrange Hgroup].
      unfold execute_word, executeOpcode, bind at 1.
      rewrite opcode_of_word by done. by rewrite Hgroup.
  - destruct (group_of_word 0 w ltac:(lia) ltac:(lia)) as [Hrange Hgroup].
    change (0 * 4096) with 0 in Hgroup.
    unfold execute_word, executeOpcode, bind at 1.
    rewrite opcode_of_word by done. rewrite Hgroup. cbv beta iota zeta.
    destruct w as [| p | p]; [reflexivity | | reflexivity].
    repeat (match goal with
            | |- context [match ?q with _ => _ end] => destruct q
            end; try reflexivity; try congruence).
  - destruct (group_of_word 8 w ltac:(lia) ltac:(lia)) as [Hrange Hgroup].
    unfold execute_word. rewrite alu_dispatch by done.
    rewrite low_nibble.
    assert (w mod 16 = 8 \/ w mod 16 = 9 \/ w mod 16 = 10 \/ w mod 16 = 11
            \/ w mod 16 = 12 \/ w mod 16 = 13 \/ w mod 16 = 15)
      as [-> | [-> | [-> | [-> | [-> | [-> | ->]]]]]] by lia;
      reflexivity.
  - destruct (group_of_word 13 w ltac:(lia) ltac:(lia)) as [Hrange Hgroup].
    change (13 * 4096) with 0xd000 in Hgroup.
    unfold execute_word, executeOpcode, bind at 1.
    rewrite opcode_of_word by done. rewrite Hgroup. cbv beta iota zeta.
    by rewrite low_nibble, Hrows.
Qed.

(** LD V3, DT (0xF307) on a fresh object. *)
Lemma unimplemented_words_do_nothing_witness :
  execute_word [] 0 0xf307 fresh = Ret tt fresh.
Proof.
  apply (unimplemented_words_do_nothing [] 0 0xf307 fresh). left. lia.
Defined.

(** ** Jumps and fetches outside the program *)

(** JP V0, addr (Bnnn): with a byte [a] in V0 the program counter becomes
    [nnn + a], which can exceed 0xFFF; with V0 never written it becomes
    NaN. *)
Theorem jump_with_offset (genv : Scope) (random nnn a : Z) (target : JsVal)
    (st : State) :
  0 <= nnn < 4096 ->
  (arr_at (v st) 0 = int a /\ 0 <= a <= 255 /\ target = int (nnn + a))
  \/ (arr_at (v st) 0 = VUndef /\ target = VNum NaN) ->
  execute_word genv random (0xb000 + nnn) st = Ret tt (set_pc target st).
Proof.
  intros Hn Hv0.
  destruct (address_fields 11 nnn ltac:(lia) Hn) as [Hgroup Haddr].
  change (11 * 4096) with 0xb000 in Hgroup, Haddr.
  unfold execute_word, executeOpcode, bind at 1.
  rewrite opcode_of_word by lia. rewrite Hgroup. cbv beta iota zeta.
  rewrite Haddr. mstep.
  destruct Hv0 as [(-> & Ha & ->) | (-> & ->)].
  - unfold bind at 1. by rewrite js_add_int by lia.
  - reflexivity.
Qed.

Lemma jump_with_offset_witness :
  execute_word [] 0 0xbfff (with_reg 0 (int 255) fresh)
  = Ret tt (set_pc (int 4350) (with_reg 0 (int 255) fresh)).
Proof.
  apply (jump_with_offset [] 0 0xfff 255 (int 4350)
           (with_reg 0 (int 255) fresh)); [lia |].
  left. repeat split; (reflexivity || lia).
Defined.

Lemma execute_undefined (genv : Scope) (random : Z) (st : State) :
  executeOpcode genv random VUndef VUndef st = Ret tt st.
Proof. reflexivity. Qed.

(** Once the program counter is [undefined] (RET found a hole of the
    stack array) or NaN, the machine is dead: every later cycle fetches
    [undefined] bytes, executes nothing, and leaves NaN in the program
    counter. *)
Theorem lost_program_counter_is_final (genv : Scope) (random now : Z)
    (st : State) :
  pc st = VUndef \/ pc st = VNum NaN ->
  delayTimer st = 0 -> soundTimer st = 0 ->
  1000 < now - lastCommandRun st ->
  run genv random now st
  = Ret tt (set_lastCommandRun now (set_pc (VNum NaN) st)).
Proof.
  intros Hpc Hd Hs Hopen. unfold run, bind at 1, gets.
  destruct (Z.gtb_spec (now - lastCommandRun st) 1000) as [_ | Hclosed];
    [| lia].
  unfold bind at 1. rewrite executeDelayTimer_at_zero by done.
  unfold bind at 1. rewrite executeSoundTimer_at_zero by done.
  unfold bind at 1. unfold bind at 1.
  assert (skip st = Ret tt (set_pc (VNum NaN) st)) as Hskip.
  { unfold skip, bind at 1, gets. by destruct Hpc as [-> | ->]. }
  assert ((do byte1 <- js_get (memory st) (pc st);
           do p1 <- js_add (pc st) (int 1);
           do byte2 <- js_get (memory st) p1;
           ret (byte1, byte2)) st = Ret (VUndef, VUndef) st) as Hfetch.
  { by destruct Hpc as [-> | ->]. }
  unfold bind at 1 in Hfetch. unfold bind at 1.
  destruct (js_get (memory st) (pc st) st) as [byte1 st1 | |]; try done.
  unfold bind at 1 in Hfetch. unfold bind at 1.
  destruct (js_add (pc st) (int 1) st1) as [p1 st2 | |]; try done.
  unfold bind at 1 in Hfetch. unfold bind at 1.
  destruct (js_get (memory st) p1 st2) as [byte2 st3 | |]; try done.
  injection Hfetch as -> -> ->.
  unfold bind at 1. rewrite execute_undefined.
  unfold bind at 1. by rewrite Hskip.
Qed.

(** RET on a fresh object, then one more cycle. *)
Lemma lost_program_counter_is_final_witness :
  run [] 0 1001 (set_sp (-1) (set_pc VUndef fresh))
  = Ret tt (set_lastCommandRun 1001
              (set_pc (VNum NaN) (set_sp (-1) (set_pc VUndef fresh)))).
Proof.
  apply (lost_program_counter_is_final [] 0 1001
           (set_sp (-1) (set_pc VUndef fresh)));
    [by left | reflexivity | reflexivity | cbn; lia].
Defined.

(** A fetch past the end of the program reads [undefined] bytes, which
    make the word 0: the cycle executes nothing and only adds 2 to the
    program counter, so a program that runs off its end is never
    stopped. *)
Theorem fetch_past_end_does_nothing (genv : Scope) (random now p : Z)
    (st : State) :
  pc st = int p ->
  Z.of_nat (length (memory st)) <= p < 2 ^ 32 - 2 ->
  delayTimer st = 0 -> soundTimer st = 0 ->
  1000 < now - lastCommandRun st ->
  run genv random now st
  = Ret tt (set_lastCommandRun now (set_pc (int (p + 2)) st)).
Proof.
  intros Hpc Hp Hd Hs Hopen. unfold run, bind at 1, gets.
  destruct (Z.gtb_spec (now - lastCommandRun st) 1000) as [_ | Hclosed];
    [| lia].
  assert (forall q, p <= q -> arr_at (memory st) q = VUndef) as Hout.
  { intros q Hq. unfold arr_at. destruct (Z.ltb_spec q 0); [done |].
    by rewrite lookup_ge_None_2 by lia. }
  unfold bind at 1. rewrite executeDelayTimer_at_zero by done.
  unfold bind at 1. rewrite executeSoundTimer_at_zero by done.
  unfold bind at 1. unfold bind at 1. rewrite Hpc.
  unfold bind at 1. rewrite js_get_int by lia. rewrite Hout by lia.
  unfold bind at 1. rewrite js_add_int by lia.
  unfold bind at 1. rewrite js_get_int by lia. rewrite Hout by lia.
  unfold bind at 1. rewrite execute_undefined.
  unfold bind at 1. rewrite (skip_int p) by (done || lia).
  reflexivity.
Qed.

(** A program of two bytes, with the program counter at 2. *)
Lemma fetch_past_end_does_nothing_witness :
  let st := set_pc (int 2) (set_memory [int 0x60; int 0x05] fresh) in
  run [] 0 1001 st = Ret tt (set_lastCommandRun 1001 (set_pc (int 4) st)).
Proof.
  apply (fetch_past_end_does_nothing [] 0 1001 2
           (set_pc (int 2) (set_memory [int 0x60; int 0x05] fresh)));
    [reflexivity | cbn; lia | reflexivity | reflexivity | cbn; lia].
Defined.

(** ** Loading a program *)

Lemma cycle_load_immediate (genv : Scope) (random now x kk : Z)
    (rest : list JsVal) (st : State) :
  0 <= x < 16 -> 0 <= kk < 256 ->
  memory st = high_byte (word_kk 6 x kk) :: low_byte (word_kk 6 x kk) :: rest ->
  pc st = int 0 ->
  delayTimer st = 0 -> soundTimer st = 0 ->
  1000 < now - lastCommandRun st ->
  run genv random now st
  = Ret tt (set_lastCommandRun now
              (set_pc (int 2)
                 (set_v (arr_store (v st) (Z.to_nat x) (int kk)) st))).
Proof.
  intros Hx Hkk Hmem Hpc Hd Hs Hopen. unfold run, bind at 1, gets.
  destruct (Z.gtb_spec (now - lastCommandRun st) 1000) as [_ | Hclosed];
    [| lia].
  unfold bind at 1. rewrite executeDelayTimer_at_zero by done.
  unfold bind at 1. rewrite executeSoundTimer_at_zero by done.
  unfold bind at 1. unfold bind at 1. rewrite Hpc, Hmem. clear Hmem.
  unfold bind at 1. rewrite js_get_int by lia.
  unfold bind at 1. rewrite js_add_int by lia.
  unfold bind at 1. rewrite js_get_int by lia.
  pose proof (load_immediate_bytes genv random x kk st Hx Hkk) as Hexec.
  revert Hexec.
  generalize (high_byte (word_kk 6 x kk)) (low_byte (word_kk 6 x kk)).
  intros byte1 byte2 Hexec.
  replace (arr_at (byte1 :: byte2 :: rest) 0) with byte1 by reflexivity.
  replace (arr_at (byte1 :: byte2 :: rest) (0 + 1)) with byte2 by reflexivity.
  unfold bind at 1. rewrite Hexec.
  unfold bind at 1. rewrite (skip_int 0); [reflexivity | exact Hpc | lia].
Qed.

(** [load] puts the program at address 0 and, when more than a second
    has passed since [reset], executes its first instruction from there:
    for a program that starts with LD Vx, kk, the call returns with
    V[x] = kk and the program counter at 2. *)
Theorem load_starts_at_address_zero (genv : Scope) (random t0 now x kk : Z)
    (rest : list JsVal) :
  0 <= x < 16 -> 0 <= kk < 256 ->
  1000 < now - t0 ->
  let w := word_kk 6 x kk in
  let program := high_byte w :: low_byte w :: rest in
  load genv random now program (reset t0)
  = Ret tt (set_lastCommandRun now
              (set_pc (int 2)
                 (set_v (arr_store (replicate 16 VUndef) (Z.to_nat x) (int kk))
                    (set_memory program (reset t0))))).
Proof.
  intros Hx Hkk Hopen. cbv zeta. unfold load, bind at 1, modify.
  by rewrite (cycle_load_immediate genv random now x kk rest).
Qed.

(** The program 0x60 0x05: V0 = 5 and the program counter at 2. *)
Lemma load_starts_at_address_zero_witness :
  load [] 0 1001 [int 0x60; int 0x05] (reset 0)
  = Ret tt (set_lastCommandRun 1001
              (set_pc (int 2)
                 (with_reg 0 (int 5) (set_memory [int 0x60; int 0x05] fresh)))).
Proof.
  apply (load_starts_at_address_zero [] 0 0 1001 0 5 []); lia.
Defined.

(** ** Pixels *)

(** Inside the grid no coordinate is changed, and the location is
    [x + 63 * y]. *)
Lemma drawPixel_inside (x y : Z) (st : State) :
  0 <= x <= 63 -> 0 <= y <= 31 ->
  drawPixel (int x) (int y) st = toggle_at (int (x + y * 63)) st.
Proof.
  intros Hx Hy. unfold drawPixel, SCREEN_WIDTH, SCREEN_HEIGHT.
  unfold bind at 1. rewrite js_gt_int.
  destruct (Z.ltb_spec 63 x); [lia |].
  unfold bind at 1, bind at 1. rewrite js_lt_int.
  destruct (Z.ltb_spec x 0); [lia |]. unfold ret at 1.
  unfold bind at 1. rewrite js_gt_int.
  destruct (Z.ltb_spec 31 y); [lia |].
  unfold bind at 1, bind at 1. rewrite js_lt_int.
  destruct (Z.ltb_spec y 0); [lia |]. unfold ret at 1.
  unfold bind at 1. rewrite js_mul_int by lia.
  unfold bind at 1. rewrite js_add_int by lia.
  reflexivity.
Qed.

(** Above the grid 63 is subtracted from x, and 31 from y, once. *)
Lemma drawPixel_above (x y : Z) (st : State) :
  63 < x < 2 ^ 31 -> 31 < y < 2 ^ 31 ->
  drawPixel (int x) (int y) st = toggle_at (int (x - 63 + (y - 31) * 63)) st.
Proof.
  intros Hx Hy. unfold drawPixel, SCREEN_WIDTH, SCREEN_HEIGHT.
  unfold bind at 1. rewrite js_gt_int.
  destruct (Z.ltb_spec 63 x); [| lia].
  unfold bind at 1. rewrite js_sub_int by lia.
  unfold bind at 1. rewrite js_gt_int.
  destruct (Z.ltb_spec 31 y); [| lia].
  unfold bind at 1. rewrite js_sub_int by lia.
  unfold bind at 1. rewrite js_mul_int by lia.
  unfold bind at 1. rewrite js_add_int by lia.
  reflexivity.
Qed.

Lemma drawPixel_right (x y : Z) (st : State) :
  63 < x < 2 ^ 31 -> 0 <= y <= 31 ->
  drawPixel (int x) (int y) st = toggle_at (int (x - 63 + y * 63)) st.
Proof.
  intros Hx Hy. unfold drawPixel, SCREEN_WIDTH, SCREEN_HEIGHT.
  unfold bind at 1. rewrite js_gt_int.
  destruct (Z.ltb_spec 63 x); [| lia].
  unfold bind at 1. rewrite js_sub_int by lia.
  unfold bind at 1. rewrite js_gt_int.
  destruct (Z.ltb_spec 31 y); [lia |].
  unfold bind at 1, bind at 1. rewrite js_lt_int.
  destruct (Z.ltb_spec y 0); [lia |]. unfold ret at 1.
  unfold bind at 1. rewrite js_mul_int by lia.
  unfold bind at 1. rewrite js_add_int by lia.
  reflexivity.
Qed.

Lemma drawPixel_below (x y : Z) (st : State) :
  0 <= x <= 63 -> 31 < y < 2 ^ 31 ->
  drawPixel (int x) (int y) st = toggle_at (int (x + (y - 31) * 63)) st.
Proof.
  intros Hx Hy. unfold drawPixel, SCREEN_WIDTH, SCREEN_HEIGHT.
  unfold bind at 1. rewrite js_gt_int.
  destruct (Z.ltb_spec 63 x); [lia |].
  unfold bind at 1, bind at 1. rewrite js_lt_int.
  destruct (Z.ltb_spec x 0); [lia |]. unfold ret at 1.
  unfold bind at 1. rewrite js_gt_int.
  destruct (Z.ltb_spec 31 y); [| lia].
  unfold bind at 1. rewrite js_sub_int by lia.
  unfold bind at 1. rewrite js_mul_int by lia.
  unfold bind at 1. rewrite js_add_int by lia.
  reflexivity.
Qed.

(** Toggling a cell that holds the bit [b]. *)
Lemma toggle_at_bit (location b : Z) (st : State) :
  0 <= location < 2 ^ 32 - 1 -> 0 <= b <= 1 ->
  arr_at (screen st) location = int b ->
  toggle_at (int location) st
  = Ret (int b)
      (set_screen (arr_store (screen st) (Z.to_nat location) (int (1 - b))) st).
Proof.
  intros Hloc Hb Hcell. unfold toggle_at.
  unfold bind at 1, gets.
  unfold bind at 1. rewrite js_get_int by done. rewrite Hcell.
  unfold bind at 1, js_xor. rewrite bitop_int by lia.
  unfold bind at 1, js_set, lift, arr_set. rewrite as_index_int by done.
  unfold bind, modify, ret.
  assert (b = 0 \/ b = 1) as [-> | ->] by lia; reflexivity.
Qed.

(** Toggling a cell that reads [undefined]. *)
Lemma toggle_at_unset (location : Z) (st : State) :
  0 <= location < 2 ^ 32 - 1 ->
  arr_at (screen st) location = VUndef ->
  toggle_at (int location) st
  = Ret VUndef
      (set_screen (arr_store (screen st) (Z.to_nat location) (int 1)) st).
Proof.
  intros Hloc Hcell. unfold toggle_at.
  unfold bind at 1, gets.
  unfold bind at 1. rewrite js_get_int by done. rewrite Hcell.
  unfold bind at 1.
  replace (js_xor VUndef (int 1) st) with (Ret (int 1) st) by reflexivity.
  unfold bind at 1, js_set, lift, arr_set. rewrite as_index_int by done.
  reflexivity.
Qed.

(** Drawing the same pixel twice restores the screen: for coordinates
    inside the grid whose cell is inside the screen array and holds a bit
    [b], two calls of [drawPixel] leave every field as it was; the first
    call returns [b] and the second its complement. *)
Theorem draw_twice_restores (x y b : Z) (st : State) :
  0 <= x <= 63 -> 0 <= y <= 31 -> 0 <= b <= 1 ->
  screen st !! Z.to_nat (x + y * 63) = Some (int b) ->
  draw_twice (int x) (int y) st = Ret (int b, int (1 - b)) st.
Proof.
  intros Hx Hy Hb Hcell. unfold draw_twice.
  assert (arr_at (screen st) (x + y * 63) = int b) as Hat.
  { unfold arr_at. destruct (Z.ltb_spec (x + y * 63) 0); [lia |].
    by rewrite Hcell. }
  unfold bind at 1. rewrite drawPixel_inside by done.
  rewrite (toggle_at_bit _ b) by (done || lia).
  unfold bind at 1. rewrite drawPixel_inside by done.
  rewrite (toggle_at_bit _ (1 - b)); cbn [screen set_screen]; try lia.
  - unfold ret. replace (1 - (1 - b)) with b by lia.
    rewrite arr_store_twice, arr_store_same_value by done.
    by destruct st.
  - apply arr_at_store_same. lia.
Qed.

(** The pixel at (5, 0) of a fresh screen. *)
Lemma draw_twice_restores_witness :
  draw_twice (int 5) (int 0) fresh = Ret (int 0, int 1) fresh.
Proof.
  apply (draw_twice_restores 5 0 0 fresh); (lia || reflexivity).
Defined.

(** Column 63 of a row is the same cell as column 0 of the next row:
    for every state, [drawPixel(63, y)] and [drawPixel(0, y + 1)] do the
    same. *)
Theorem last_column_is_next_row (y : Z) (st : State) :
  0 <= y <= 30 ->
  drawPixel (int 63) (int y) st = drawPixel (int 0) (int (y + 1)) st.
Proof.
  intros Hy. rewrite !drawPixel_inside by lia.
  by replace (0 + (y + 1) * 63) with (63 + y * 63) by lia.
Qed.

Lemma last_column_is_next_row_witness :
  drawPixel (int 63) (int 7) fresh = drawPixel (int 0) (int 8) fresh.
Proof. apply (last_column_is_next_row 7 fresh). lia. Defined.

(** Past the right edge [drawPixel] subtracts 63, once: for x from 64 to
    126 it does what it does at [x - 63], so column 64 lands on column 1
    and no x wraps to column 0; likewise past the bottom edge it
    subtracts 31, so row 32 lands on row 1. *)
Theorem wrap_subtracts_the_constant (x y x' y' : Z) (st : State) :
  1 <= x <= 63 -> 0 <= y <= 31 ->
  0 <= x' <= 63 -> 1 <= y' <= 31 ->
  drawPixel (int (x + 63)) (int y) st = drawPixel (int x) (int y) st
  /\ drawPixel (int x') (int (y' + 31)) st = drawPixel (int x') (int y') st.
Proof.
  intros Hx Hy Hx' Hy'. split.
  - rewrite drawPixel_right, drawPixel_inside by lia.
    by replace (x + 63 - 63) with x by lia.
  - rewrite drawPixel_below, drawPixel_inside by lia.
    by replace (y' + 31 - 31) with y' by lia.
Qed.

Lemma wrap_subtracts_the_constant_witness :
  drawPixel (int 64) (int 0) fresh = drawPixel (int 1) (int 0) fresh
  /\ drawPixel (int 0) (int 32) fresh = drawPixel (int 0) (int 1) fresh.
Proof.
  apply (wrap_subtracts_the_constant 1 0 0 1 fresh); lia.
Defined.

(** A pixel whose location is past the end of the screen array reads
    [undefined]: [drawPixel] returns [undefined], not 0, and the array
    grows up to that location.  On the screen that [reset] builds
    (63 * 31 cells) this is the case for the whole row y = 31. *)
Theorem draw_past_end_grows_screen (x y : Z) (st : State) :
  0 <= x <= 63 -> 0 <= y <= 31 ->
  Z.of_nat (length (screen st)) <= x + y * 63 ->
  drawPixel (int x) (int y) st
  = Ret VUndef
      (set_screen
         (screen st
          ++ replicate (Z.to_nat (x + y * 63) - length (screen st)) VUndef
          ++ [int 1])
         st).
Proof.
  intros Hx Hy Hpast. rewrite drawPixel_inside by done.
  rewrite toggle_at_unset; [| lia |].
  - unfold arr_store.
    destruct (decide (Z.to_nat (x + y * 63) < length (screen st))%nat);
      [lia | reflexivity].
  - unfold arr_at. destruct (Z.ltb_spec (x + y * 63) 0); [done |].
    by rewrite lookup_ge_None_2 by lia.
Qed.

(** The pixel at (0, 31) of a fresh screen. *)
Lemma draw_past_end_grows_screen_witness :
  drawPixel (int 0) (int 31) fresh
  = Ret VUndef (set_screen (screen fresh ++ [int 1]) fresh).
Proof.
  apply (draw_past_end_grows_screen 0 31 fresh); [lia | lia |].
  vm_compute. discriminate.
Defined.

(** After [clearScreen] the entries of the screen are references to the
    row, so the first pixel drawn in any of the 63 columns of row 0
    returns the row object, which is what DRW then stores in VF, and
    replaces that column's reference by the number 1. *)
Theorem draw_on_cleared_screen_returns_row (x : Z) (st : State) :
  0 <= x <= 62 ->
  let row := length (heap st) in
  (exec clearScreen; drawPixel (int x) (int 0)) st
  = Ret (VRef row)
      (set_screen (<[Z.to_nat x := int 1]> (replicate 63 (VRef row)))
         (set_heap (heap st ++ [replicate 31 (int 0)]) st)).
Proof.
  intros Hx row. unfold bind at 1.
  replace (clearScreen st)
    with (Ret tt (set_screen (replicate 63 (VRef row))
                    (set_heap (heap st ++ [replicate 31 (int 0)]) st)))
    by reflexivity.
  set (st1 := set_screen _ _).
  rewrite drawPixel_inside by lia. replace (x + 0 * 63) with x by lia.
  unfold toggle_at, bind at 1, gets.
  unfold bind at 1. rewrite js_get_int by lia.
  assert (arr_at (screen st1) x = VRef row) as ->.
  { unfold arr_at. destruct (Z.ltb_spec x 0); [lia |].
    cbn [screen st1 set_screen]. by rewrite lookup_replicate_2 by lia. }
  assert (js_xor (VRef row) (int 1) st1 = Ret (int 1) st1) as Hxor.
  { unfold js_xor, bitop, bind at 1, ToInt32, bind at 1, ToNumber, bind, gets, lift.
    cbn [heap st1 set_screen set_heap to_number].
    unfold row. by rewrite list_lookup_middle. }
  unfold bind at 1. rewrite Hxor.
  unfold bind at 1, js_set, lift, arr_set. rewrite as_index_int by lia.
  unfold bind, modify, ret, arr_store. cbn [screen st1 set_screen].
  rewrite length_replicate.
  destruct (decide (Z.to_nat x < 63)%nat); [reflexivity | lia].
Qed.

(** Column 5 on a fresh object. *)
Lemma draw_on_cleared_screen_returns_row_witness :
  (exec clearScreen; drawPixel (int 5) (int 0)) fresh
  = Ret (VRef 0)
      (set_screen (<[5%nat := int 1]> (replicate 63 (VRef 0)))
         (set_heap [replicate 31 (int 0)] fresh)).
Proof.
  apply (draw_on_cleared_screen_returns_row 5 fresh). lia.
Defined.

(** ** Sprites *)

Lemma draw_columns_unset_row (y : Z) (st : State) :
  draw_columns 8 0 y VUndef st = Ret tt st.
Proof. reflexivity. Qed.

Lemma draw_rows_outside_memory (st : State) (todo : nat) : forall y,
  0 <= y ->
  Z.of_nat (length (memory st)) <= i st ->
  draw_rows todo y st = Ret tt st.
Proof.
  induction todo as [| todo IH]; intros y Hy Hmem; [reflexivity |].
  cbn [draw_rows]. unfold bind at 1, gets.
  assert (arr_at (memory st) (i st + y) = VUndef) as ->.
  { unfold arr_at. destruct (Z.ltb_spec (i st + y) 0); [done |].
    by rewrite lookup_ge_None_2 by lia. }
  unfold bind at 1. rewrite draw_columns_unset_row.
  apply IH; [lia | done].
Qed.

(** DRW reads its sprite from memory at I without any bound: when I is
    at or past the end of the program, every row reads [undefined], no
    pixel is drawn and VF is not touched, whatever the height. *)
Theorem draw_outside_memory_draws_nothing (genv : Scope) (random x y n : Z)
    (st : State) :
  0 <= x < 16 -> 0 <= y < 16 -> 0 <= n < 16 ->
  Z.of_nat (length (memory st)) <= i st ->
  execute_word genv random (word_xyn 13 x y n) st = Ret tt st.
Proof.
  intros Hx Hy Hn Hmem.
  destruct (word_xyn_fields 13 x y n ltac:(lia) Hx Hy Hn)
    as (Hrange & Hgroup & _ & _ & Hlow).
  dispatch Hrange Hgroup. rewrite Hlow.
  by apply draw_rows_outside_memory.
Qed.

(** DRW V0, V0, 15 on a fresh object whose program is two bytes long and
    whose I is 2. *)
Lemma draw_outside_memory_draws_nothing_witness :
  let st := set_i 2 (set_memory [int 0xd0; int 0x0f] fresh) in
  execute_word [] 0 0xd00f st = Ret tt st.
Proof.
  apply (draw_outside_memory_draws_nothing [] 0 0 0 15
           (set_i 2 (set_memory [int 0xd0; int 0x0f] fresh)));
    (lia || (cbn; lia)).
Defined.

(** ** The stack array and the stack pointer *)



Lemma call_exact (genv : Scope) (random nnn : Z) (st : State) :
  0 <= nnn < 4096 ->
  execute_word genv random (0x2000 + nnn) st
  = Ret tt (set_pc (int nnn)
              (set_stack (stack st ++ [pc st]) (set_sp (sp st + 1) st))).
Proof.
  intros Hn.
  destruct (address_fields 2 nnn ltac:(lia) Hn) as [Hgroup Haddr].
  change (2 * 4096) with 0x2000 in Hgroup, Haddr.
  unfold execute_word, executeOpcode, bind at 1.
  rewrite opcode_of_word by lia. rewrite Hgroup. cbv beta iota zeta.
  by rewrite Haddr.
Qed.

Lemma ret_exact (genv : Scope) (random : Z) (st : State) :
  execute_word genv random 0x00ee st
  = Ret tt (set_sp (sp st - 1) (set_pc (arr_at (stack st) (sp st)) st)).
Proof. vm_compute. reflexivity. Qed.

(** A RET right after a CALL does not return to the caller: whenever at
    least two entries of the stack array are at or above the stack pointer
    (sixteen are, in every state reached from [reset]), RET loads the
    entry that was above the stack pointer before the CALL, not the
    program counter that the CALL appended; the stack pointer is back at
    its old value and the appended entry stays in the array. *)
Theorem return_after_call_loads_old_entry (genv : Scope) (random nnn : Z)
    (st : State) :
  0 <= nnn < 4096 ->
  -1 <= sp st -> 2 <= above_sp st ->
  (exec execute_word genv random (0x2000 + nnn);
   execute_word genv random 0x00ee) st
  = Ret tt (set_sp (sp st)
              (set_pc (arr_at (stack st) (sp st + 1))
                 (set_stack (stack st ++ [pc st]) st))).
Proof.
  intros Hn Hsp Hgap. unfold above_sp in Hgap.
  unfold bind at 1. rewrite call_exact by done. rewrite ret_exact.
  simpl_fields.
  assert (arr_at (stack st ++ [pc st]) (sp st + 1)
          = arr_at (stack st) (sp st + 1)) as ->.
  { unfold arr_at. destruct (Z.ltb_spec (sp st + 1) 0); [done |].
    by rewrite lookup_app_l by lia. }
  by replace (sp st + 1 - 1) with (sp st) by lia.
Qed.

(** On a fresh object the entry loaded is a hole of the array. *)
Lemma return_after_call_loads_old_entry_witness :
  (exec execute_word [] 0 0x2200; execute_word [] 0 0x00ee) fresh
  = Ret tt (set_pc VUndef (set_stack (stack fresh ++ [int 0]) fresh)).
Proof.
  apply (return_after_call_loads_old_entry [] 0 0x200 fresh);
    [lia | cbn; lia | vm_compute; discriminate].
Defined.

(** ** Additions *)

Lemma add_registers_exact (genv : Scope) (random x y a b : Z) (st : State) :
  0 <= x < 15 -> 0 <= y < 15 ->
  arr_at (v st) x = int a -> arr_at (v st) y = int b ->
  Z.abs (a + b) < 2 ^ 53 ->
  execute_word genv random (word_xyn 8 x y 4) st
  = Ret tt (set_v (arr_store (arr_store (v st) 15 (int 0))
                     (Z.to_nat x) (int (a + b))) st).
Proof.
  intros Hx Hy Ha Hb Hsum.
  assert (0 <= x < 16) as Hx16 by lia. assert (0 <= y < 16) as Hy16 by lia.
  alu_case 4 Hx16 Hy16.
  destruct (Z.gtb_spec (x + y) 255) as [Hbig | _]; [lia |].
  mstep. change (Z.to_nat 15) with 15%nat.
  mstep. mstep.
  rewrite (arr_at_store_other _ 15 x), (arr_at_store_other _ 15 y) by lia.
  rewrite Ha, Hb. unfold bind at 1. by rewrite js_add_int.
Qed.

(** ADD Vx, Vy (8xy4) with a register that was never written: the sum
    is NaN, which V[x] then holds, and VF is 0. *)
Theorem add_with_unset_register_is_nan (genv : Scope) (random x y a : Z)
    (st : State) :
  0 <= x < 15 -> 0 <= y < 15 ->
  arr_at (v st) x = int a -> arr_at (v st) y = VUndef ->
  execute_word genv random (word_xyn 8 x y 4) st
  = Ret tt (set_v (arr_store (arr_store (v st) 15 (int 0))
                     (Z.to_nat x) (VNum NaN)) st).
Proof.
  intros Hx Hy Ha Hb.
  assert (0 <= x < 16) as Hx16 by lia. assert (0 <= y < 16) as Hy16 by lia.
  alu_case 4 Hx16 Hy16.
  destruct (Z.gtb_spec (x + y) 255) as [Hbig | _]; [lia |].
  mstep. change (Z.to_nat 15) with 15%nat.
  mstep. mstep.
  rewrite (arr_at_store_other _ 15 x), (arr_at_store_other _ 15 y) by lia.
  rewrite Ha, Hb. reflexivity.
Qed.

Lemma add_with_unset_register_is_nan_witness :
  execute_word [] 0 0x8014 (with_reg 0 (int 7) fresh)
  = Ret tt (with_reg 0 (VNum NaN) (with_reg 15 (int 0) (with_reg 0 (int 7) fresh))).
Proof.
  apply (add_with_unset_register_is_nan [] 0 0 1 7 (with_reg 0 (int 7) fresh));
    (lia || reflexivity).
Defined.

(** Registers are not kept to a byte: [k] times ADD Vx, Vx on a register
    other than VF that holds [a >= 0] leave [a * 2^k] in it, as long as
    that is below 2^53. *)
Theorem repeated_add_doubles_without_bound (genv : Scope) (random x : Z)
    (k : nat) : forall (a : Z) (st : State),
  0 <= x < 15 ->
  arr_at (v st) x = int a ->
  0 <= a -> a * 2 ^ Z.of_nat k < 2 ^ 53 ->
  exists st',
    times k (execute_word genv random (word_xyn 8 x x 4)) st = Ret tt st'
    /\ arr_at (v st') x = int (a * 2 ^ Z.of_nat k).
Proof.
  induction k as [| k IH]; intros a st Hx Ha Hpos Hbound.
  - exists st. split; [reflexivity |]. rewrite Ha. f_equal. cbn. lia.
  - assert (2 ^ Z.of_nat (S k) = 2 * 2 ^ Z.of_nat k) as Hpow.
    { rewrite Nat2Z.inj_succ, Z.pow_succ_r by lia. reflexivity. }
    assert (0 < 2 ^ Z.of_nat k) as Hpowpos by (apply Z.pow_pos_nonneg; lia).
    cbn [times]. unfold bind at 1.
    rewrite (add_registers_exact genv random x x a a) by (done || nia).
    destruct (IH (a + a)
                (set_v (arr_store (arr_store (v st) 15 (int 0))
                          (Z.to_nat x) (int (a + a))) st))
      as (st' & Hrun & Hreg); try done; try nia.
    + simpl_fields. apply arr_at_store_same. lia.
    + exists st'. split; [done |]. rewrite Hreg. f_equal. nia.
Qed.

(** Six additions from V0 = 200 leave 12800. *)
Lemma repeated_add_doubles_without_bound_witness :
  exists st',
    times 6 (execute_word [] 0 0x8004) (with_reg 0 (int 200) fresh) = Ret tt st'
    /\ arr_at (v st') 0 = int 12800.
Proof.
  apply (repeated_add_doubles_without_bound [] 0 0 6 200
           (with_reg 0 (int 200) fresh)); (lia || reflexivity).
Defined.
